(** * Rocket launch aerodynamics simulator: flight-dynamics core

    A shallow embedding of the TypeScript core of the simulator
    ([lib/atmosphere.ts], [lib/drag.ts], [lib/motors.ts], [lib/barrowman.ts],
    [lib/cg.ts], [lib/simulation.ts], [lib/designToSim.ts] and the
    [api/simulation/run] route) and the properties its specification states.

    Numbers.  The source computes with JavaScript [number]s.  They are
    embedded as the real numbers of the standard library: [Math.sqrt],
    [Math.exp], [Math.sin], [Math.PI], [Math.abs], [Math.max] and [Math.min]
    become [sqrt], [exp], [sin], [PI], [Rabs], [Rmax] and [Rmin], and [x / 0]
    is [0] as in the library.  The development is therefore about the
    arithmetic the code writes down, not about IEEE rounding, infinities or
    NaN. *)

From Stdlib Require Import Reals Lra Lia List Sorted Permutation.
From Stdlib Require Import String Bool Arith.
Import ListNotations.
Open Scope R_scope.

(** ** Comparisons of numbers as booleans

    The JavaScript operators [<], [<=], [>=] and [>] on numbers. *)

Module Num.

Definition ltb (x y : R) : bool := if Rlt_dec x y then true else false.
Definition leb (x y : R) : bool := if Rle_dec x y then true else false.
Definition geb (x y : R) : bool := leb y x.
Definition gtb (x y : R) : bool := ltb y x.

End Num.

(** ** [types/rocket.ts] *)

Module Rocket.

Inductive NoseShape : Type := cone | ogive.

Record RocketGeometry : Type := {
  noseLength : R;
  noseShape : NoseShape;
  bodyDiameter : R;
  bodyLength : R;
  finRootLeadingEdge : R;
  finRootChord : R;
  finTipChord : R;
  finSemispan : R;
  finSweep : R;
  numFins : R
}.

(** [noseMass?: number] is an optional field. *)
Record RocketDesign : Type := {
  geometry : RocketGeometry;
  bodyMass : R;
  finMass : R;
  noseMass : option R;
  payloadMass : R;
  payloadPosition : R;
  motorId : string;
  motorPosition : R
}.

End Rocket.

(** ** [lib/atmosphere.ts] *)

Module Atmosphere.

Definition R_AIR : R := 287.05.
Definition T0 : R := 288.15.
Definition RHO0 : R := 1.225.
Definition LAPSE : R := 0.0065.
Definition TROPOPAUSE_ALT : R := 11000.
Definition T_TROP : R := 216.65.

Definition temperature (altitude : R) : R :=
  if Num.leb altitude 0 then T0
  else if Num.leb altitude TROPOPAUSE_ALT then T0 - LAPSE * altitude
  else T_TROP.

Definition P0 : R := 101325.

Definition density (altitude : R) : R :=
  if Num.leb altitude 0 then RHO0
  else RHO0 * exp (- altitude / 7400).

Definition pressure (altitude : R) : R :=
  let rho := density altitude in
  let T := temperature altitude in
  rho * R_AIR * T.

Definition speedOfSound (altitude : R) : R :=
  let T := temperature altitude in
  sqrt (1.4 * R_AIR * T).

Definition machNumber (velocity altitude : R) : R :=
  let a := speedOfSound altitude in
  if Num.gtb a 0 then velocity / a else 0.

End Atmosphere.

(** ** [lib/drag.ts] *)

Module Drag.

(** The value returned inside [if (mach <= 1.2) { ... }]. *)
Definition transonicCd (mach : R) : R :=
  let t := (mach - 0.8) / 0.4 in
  0.35 + t * (1.0 - 0.35) + 0.3 * sin (PI * t).

(** The value of the final [return]. *)
Definition supersonicCd (mach : R) : R :=
  0.6 - 0.02 * Rmin (mach - 1.2) 2.

Definition dragCoefficient (mach : R) : R :=
  if Num.ltb mach 0.8 then 0.35
  else if Num.leb mach 1.2 then transonicCd mach
  else supersonicCd mach.

Definition dragForceMagnitude
    (airDensity velocityMagnitude cd referenceArea : R) : R :=
  0.5 * airDensity * velocityMagnitude * velocityMagnitude * cd * referenceArea.

End Drag.

(** ** [lib/motors.ts] *)

Module Motors.

Record MotorSpec : Type := {
  id : string;
  name : string;
  totalImpulse : R;
  burnTime : R;
  propellantMass : R;
  dryMass : R;
  thrustAt : R -> R
}.

(** [trapezoidalThrust(peakThrust, burnTime, rampUpRatio = 0.1,
    rampDownRatio = 0.2)]; the closure it returns is the function of [t]. *)
Definition trapezoidalThrustWith
    (peakThrust burnTime rampUpRatio rampDownRatio : R) : R -> R :=
  let t1 := burnTime * rampUpRatio in
  let t2 := burnTime * (1 - rampDownRatio) in
  fun t : R =>
    if Num.leb t 0 || Num.geb t burnTime then 0
    else if Num.ltb t t1 then (peakThrust * t) / t1
    else if Num.leb t t2 then peakThrust
    else (peakThrust * (burnTime - t)) / (burnTime - t2).

Definition trapezoidalThrust (peakThrust burnTime : R) : R -> R :=
  trapezoidalThrustWith peakThrust burnTime 0.1 0.2.

Definition MOTORS : list MotorSpec :=
  [ {| id := "estes-a8"; name := "Estes A8"; totalImpulse := 2.5;
       burnTime := 0.5; propellantMass := 0.006; dryMass := 0.012;
       thrustAt := trapezoidalThrust 5.5 0.5 |};
    {| id := "estes-b6"; name := "Estes B6"; totalImpulse := 5;
       burnTime := 0.8; propellantMass := 0.012; dryMass := 0.012;
       thrustAt := trapezoidalThrust 7.5 0.8 |};
    {| id := "estes-c6"; name := "Estes C6"; totalImpulse := 10;
       burnTime := 1.6; propellantMass := 0.024; dryMass := 0.012;
       thrustAt := trapezoidalThrust 9 1.6 |};
    {| id := "estes-d12"; name := "Estes D12"; totalImpulse := 20;
       burnTime := 2.2; propellantMass := 0.044; dryMass := 0.014;
       thrustAt := trapezoidalThrust 14 2.2 |};
    {| id := "custom-mid"; name := "Custom Mid"; totalImpulse := 50;
       burnTime := 3; propellantMass := 0.08; dryMass := 0.02;
       thrustAt := trapezoidalThrust 25 3 |} ].

(** [MOTORS.find((m) => m.id === id)]: [undefined] is [None]. *)
Definition getMotor (i : string) : option MotorSpec :=
  find (fun m => String.eqb (id m) i) MOTORS.

End Motors.

(** ** [lib/barrowman.ts] *)

Module Barrowman.

Import Rocket.

(** The object [{ CN, X }] returned by [noseTerms] and [finTerms]. *)
Record Terms : Type := { CN : R; X : R }.

Definition noseTerms (ln : R) (shape : NoseShape) : Terms :=
  let CN_N := 2 in
  let XN := match shape with
            | cone => (2 / 3) * ln
            | ogive => 0.466 * ln
            end in
  {| CN := CN_N; X := XN |}.

(** [finTerms] divides by [d], by [S + R] and by [CR + CT].  With one of
    them 0 the source gets an infinite or undefined term where the quotient
    here is 0, so the properties of the fin terms are stated for geometries
    in which these divisors are not 0. *)
Definition finTerms (g : RocketGeometry) : Terms :=
  let d := bodyDiameter g in
  let R := d / 2 in
  let S := finSemispan g in
  let CR := finRootChord g in
  let CT := finTipChord g in
  let XR := finSweep g in
  let XB := finRootLeadingEdge g in
  let N := numFins g in
  let K_FB := 1 + R / (S + R) in
  let midChordHorizontal := XR + (CT - CR) / 2 in
  let LF := sqrt (S * S + midChordHorizontal * midChordHorizontal) in
  let denom := 1 + sqrt (1 + ((2 * LF) / (CR + CT)) ^ 2) in
  let CN_F := K_FB * (4 * N * (S / d) ^ 2) / denom in
  let XF :=
    XB +
    (XR / 3) * ((CR + 2 * CT) / (CR + CT)) +
    (1 / 6) * ((CR * CR + CT * CT + CR * CT) / (CR + CT)) in
  {| CN := CN_F; X := XF |}.

Definition centerOfPressure (geometry : RocketGeometry) : R :=
  let nose := noseTerms (noseLength geometry) (noseShape geometry) in
  let fin := finTerms geometry in
  let totalCN := CN nose + CN fin in
  if Num.leb totalCN 0 then 0
  else (CN nose * X nose + CN fin * X fin) / totalCN.

Definition referenceArea (geometry : RocketGeometry) : R :=
  let r := bodyDiameter geometry / 2 in
  PI * r * r.

Definition stabilityMarginCalibers (cpFromNose cgFromNose diameter : R) : R :=
  (cpFromNose - cgFromNose) / diameter.

Definition isStableMin (calibers minCalibers : R) : bool :=
  Num.geb calibers minCalibers.

(** [isStable(calibers, minCalibers = 1)] with the default taken. *)
Definition isStable (calibers : R) : bool := isStableMin calibers 1.

End Barrowman.

(** ** [lib/cg.ts] *)

Module CG.

Record MassComponent : Type := {
  positionFromNose : R;
  mass : R
}.

(** The [for ... of] loop of [computeCG], carrying [(sumMx, sumM)]. *)
Definition sums (components : list MassComponent) : R * R :=
  fold_left
    (fun acc c =>
       (fst acc + mass c * positionFromNose c, snd acc + mass c))
    components (0, 0).

Definition computeCG (components : list MassComponent) : R :=
  let (sumMx, sumM) := sums components in
  if Num.leb sumM 0 then 0 else sumMx / sumM.

Record CGParams : Type := {
  noseLength : R;
  bodyLength : R;
  bodyDiameter : R;
  finRootLeadingEdge : R;
  finRootChord : R;
  finTipChord : R;
  noseMass : option R;
  bodyMass : R;
  finMass : R;
  payloadMass : R;
  payloadPosition : R;
  motorMass : R;
  motorPosition : R
}.

Definition NOSE_DENSITY : R := 500.

Definition buildCGComponents (p : CGParams) : list MassComponent :=
  let noseMass :=
    match noseMass p with
    | Some m => m
    | None =>
        (1 / 3) * PI * (bodyDiameter p / 2) ^ 2 * noseLength p * NOSE_DENSITY
    end in
  let finCenterX :=
    finRootLeadingEdge p + (finRootChord p + finTipChord p) / 4 in
  [ {| positionFromNose := (3 / 4) * noseLength p; mass := noseMass |};
    {| positionFromNose := noseLength p + bodyLength p / 2;
       mass := bodyMass p |};
    {| positionFromNose := finCenterX; mass := finMass p |} ]
  ++ (if Num.gtb (payloadMass p) 0
      then [ {| positionFromNose := payloadPosition p;
                mass := payloadMass p |} ]
      else [])
  ++ [ {| positionFromNose := motorPosition p; mass := motorMass p |} ].

Definition centerOfGravity (p : CGParams) : R :=
  computeCG (buildCGComponents p).

End CG.

(** ** [lib/simulation.ts] *)

Module Simulation.

Definition G : R := 9.81.

Definition thrustAltitudeFactor (altitude : R) : R :=
  let p := Atmosphere.pressure altitude in
  let ratio := p / Atmosphere.P0 in
  1 + 0.12 * (1 - Rmax 0 ratio).

(** The string union ['pre' | 'burn' | 'coast' | 'apogee' | 'recovery']. *)
Inductive Phase : Type := Pre | Burn | Coast | Apogee | Recovery.

Definition phase_eqb (a b : Phase) : bool :=
  match a, b with
  | Pre, Pre | Burn, Burn | Coast, Coast
  | Apogee, Apogee | Recovery, Recovery => true
  | _, _ => false
  end.

(** An element of [trail]: [{ altitude, velocity, mach, time }]. *)
Record TrailPoint : Type := {
  tp_altitude : R;
  tp_velocity : R;
  tp_mach : R;
  tp_time : R
}.

Record SimulationState : Type := {
  time : R;
  altitude : R;
  velocity : R;
  acceleration : R;
  mass : R;
  mach : R;
  cd : R;
  airDensity : R;
  thrust : R;
  drag : R;
  phase : Phase;
  apogee : R;
  trail : list TrailPoint
}.

(** The three fields marked [?] are optional. *)
Record SimulationParams : Type := {
  referenceArea : R;
  dryMass : R;
  motor : Motors.MotorSpec;
  motorStartTime : option R;
  deployAtApogee : option bool;
  maxTrailPoints : option R
}.

Definition MAX_TRAIL : R := 500.
Definition DT : R := 1 / 60.

Definition initialState (params : SimulationParams) : SimulationState :=
  let motor := motor params in
  let mass :=
    dryMass params + Motors.propellantMass motor + Motors.dryMass motor in
  {| time := 0;
     altitude := 0;
     velocity := 0;
     acceleration := 0;
     mass := mass;
     mach := 0;
     cd := Drag.dragCoefficient 0;
     airDensity := Atmosphere.density 0;
     thrust := 0;
     drag := 0;
     phase := Pre;
     apogee := 0;
     trail := [] |}.

(** [a ?? b] on an optional number. *)
Definition orElse {A : Type} (o : option A) (d : A) : A :=
  match o with Some x => x | None => d end.

(** [trail.shift()]: drops the first element, if any. *)
Definition shift {A : Type} (l : list A) : list A := tl l.

(** [stepSimulation(state, params, dt)].  The statements of the source are
    kept in their order; a variable that the source reassigns is a fresh
    binding at each assignment ([phase0] to [phase4], [apogee0] and
    [apogee1]).  The block [if (phase === 'coast') { apogee = ...;
    if (v < 0) phase = 'apogee'; }] is its two assignments, each under the
    condition it runs under. *)
Definition stepSimulation
    (state : SimulationState) (params : SimulationParams) (dt : R)
    : SimulationState :=
  let referenceArea := referenceArea params in
  let dryMass := dryMass params in
  let motor := motor params in
  let motorStartTime := orElse (motorStartTime params) 0 in
  let t := time state + dt in
  let h := altitude state in
  let v := velocity state in

  let burnTime := Motors.burnTime motor in
  let inBurn :=
    Num.geb t motorStartTime && Num.ltb t (motorStartTime + burnTime) in
  let burnElapsed := if inBurn then t - motorStartTime else 0 in

  let mass :=
    if inBurn then
      let propUsed := (burnElapsed / burnTime) * Motors.propellantMass motor in
      dryMass + Motors.dryMass motor + Motors.propellantMass motor - propUsed
    else if Num.geb t (motorStartTime + burnTime)
            && phase_eqb (phase state) Burn then
      dryMass + Motors.dryMass motor
    else mass state in

  let thrustRaw := if inBurn then Motors.thrustAt motor burnElapsed else 0 in
  let thrust := thrustRaw * (if inBurn then thrustAltitudeFactor h else 1) in

  let rho := Atmosphere.density h in
  let mach := Atmosphere.machNumber (Rabs v) h in
  let cd := Drag.dragCoefficient mach in
  let dragMag := Drag.dragForceMagnitude rho (Rabs v) cd referenceArea in
  let drag := if Num.geb v 0 then - dragMag else dragMag in

  let gravity := - G * mass in
  let netForce := thrust + drag + gravity in
  let acceleration := if Num.gtb mass 0 then netForce / mass else 0 in
  let newVelocity := v + acceleration * dt in
  let newAltitude := Rmax 0 (h + v * dt + 0.5 * acceleration * dt * dt) in

  let phase0 := phase state in
  let apogee0 := apogee state in
  let phase1 :=
    if phase_eqb (phase state) Pre && Num.leb motorStartTime t
    then (if inBurn then Burn else Coast)
    else phase0 in
  let phase2 :=
    if phase_eqb (phase state) Burn && negb inBurn then Coast else phase1 in
  let apogee1 := if phase_eqb phase2 Coast then Rmax apogee0 h else apogee0 in
  let phase3 :=
    if phase_eqb phase2 Coast && Num.ltb v 0 then Apogee else phase2 in
  let phase4 :=
    if phase_eqb (phase state) Apogee then Recovery else phase3 in

  let pushed :=
    trail state ++
    [ {| tp_altitude := newAltitude; tp_velocity := newVelocity;
         tp_mach := mach; tp_time := t |} ] in
  let maxTrail := orElse (maxTrailPoints params) MAX_TRAIL in
  let trail :=
    if Num.gtb (INR (List.length pushed)) maxTrail
    then shift pushed else pushed in

  {| time := t;
     altitude := newAltitude;
     velocity := newVelocity;
     acceleration := acceleration;
     mass := mass;
     mach := mach;
     cd := cd;
     airDensity := rho;
     thrust := thrust;
     drag := drag;
     phase := phase4;
     apogee := apogee1;
     trail := trail |}.

Definition createSimulationState (params : SimulationParams)
    : SimulationState :=
  initialState params.

(** The states a driver visits: [createSimulationState] followed by [n]
    calls of [stepSimulation] with the same [dt]. *)
Fixpoint trajectory (params : SimulationParams) (dt : R) (n : nat)
    : SimulationState :=
  match n with
  | O => createSimulationState params
  | S k => stepSimulation (trajectory params dt k) params dt
  end.

(** [runToApogee(params, maxTime, dt)].  The [while] loop has no bound of its
    own, so the embedding takes the number of iterations it may spend and
    answers [None] when they run out before the loop condition fails. *)
Fixpoint runToApogeeLoop
    (fuel : nat) (state : SimulationState) (steps : nat)
    (params : SimulationParams) (maxTime dt : R)
    : option (SimulationState * nat) :=
  if Num.ltb (time state) maxTime && negb (phase_eqb (phase state) Apogee)
  then match fuel with
       | O => None
       | S fuel' =>
           runToApogeeLoop fuel' (stepSimulation state params dt) (S steps)
                           params maxTime dt
       end
  else Some (state, steps).

Definition runToApogee
    (fuel : nat) (params : SimulationParams) (maxTime dt : R)
    : option (SimulationState * nat) :=
  runToApogeeLoop fuel (createSimulationState params) 0%nat params maxTime dt.

End Simulation.

(** ** [lib/designToSim.ts] *)

Module DesignToSim.

Import Rocket.

(** [getSimParams]: [null] is [None]. *)
Definition getSimParams (design : RocketDesign)
    : option Simulation.SimulationParams :=
  match Motors.getMotor (motorId design) with
  | None => None
  | Some motor =>
      let g := geometry design in
      let noseMass :=
        Simulation.orElse (noseMass design)
          ((1 / 3) * PI * (bodyDiameter g / 2) ^ 2 * noseLength g * 500) in
      let dryMass :=
        noseMass + bodyMass design + finMass design + payloadMass design
        + Motors.dryMass motor in
      Some {| Simulation.referenceArea := Barrowman.referenceArea g;
              Simulation.dryMass := dryMass;
              Simulation.motor := motor;
              Simulation.motorStartTime := Some 0;
              Simulation.deployAtApogee := Some true;
              Simulation.maxTrailPoints := Some 500 |}
  end.

(** The argument [getPreLaunchResults] passes to [centerOfGravity]; the
    immediately invoked arrow function is the [match] on the lookup. *)
Definition cgParams (design : RocketDesign) : CG.CGParams :=
  let g := geometry design in
  {| CG.noseLength := noseLength g;
     CG.bodyLength := bodyLength g;
     CG.bodyDiameter := bodyDiameter g;
     CG.finRootLeadingEdge := finRootLeadingEdge g;
     CG.finRootChord := finRootChord g;
     CG.finTipChord := finTipChord g;
     CG.bodyMass := bodyMass design;
     CG.finMass := finMass design;
     CG.noseMass := noseMass design;
     CG.payloadMass := payloadMass design;
     CG.payloadPosition := payloadPosition design;
     CG.motorMass :=
       match Motors.getMotor (motorId design) with
       | Some m => Motors.propellantMass m + Motors.dryMass m
       | None => 0.03
       end;
     CG.motorPosition := motorPosition design |}.

Record PreLaunchResults : Type := {
  cp : R;
  cg : R;
  stabilityCalibers : R;
  isStable : bool
}.

Definition getPreLaunchResults (design : RocketDesign) : PreLaunchResults :=
  let g := geometry design in
  let cp := Barrowman.centerOfPressure g in
  let cg := CG.centerOfGravity (cgParams design) in
  let diameter := bodyDiameter g in
  let stabilityCalibers := (cp - cg) / diameter in
  let isStable := Num.geb stabilityCalibers 1 in
  {| cp := cp; cg := cg;
     stabilityCalibers := stabilityCalibers; isStable := isStable |}.

Definition createInitialSimState (design : RocketDesign)
    : option Simulation.SimulationState :=
  match getSimParams design with
  | None => None
  | Some params => Some (Simulation.createSimulationState params)
  end.

End DesignToSim.

(** ** The request handlers

    [app/api/simulation/run/route.ts] (RunTrajectory) and the handler that
    answers with [getPreLaunchResults] (Analyze).  A request body is the
    design it carries, if any; a response is either the JSON error with its
    HTTP status or the JSON payload. *)

Module Routes.

Import Rocket.

Record TelemetryPoint : Type := {
  tl_time : R;
  tl_altitude : R;
  tl_velocity : R
}.

Inductive RunResponse : Type :=
| RunError (error : string) (status : nat)
| RunOk (states : list Simulation.SimulationState)
        (telemetryHistory : list TelemetryPoint).

Inductive AnalyzeResponse : Type :=
| AnalyzeError (error : string) (status : nat)
| AnalyzeOk (results : DesignToSim.PreLaunchResults).

Definition dt : R := 1 / 60.
Definition maxTime : R := 120.

(** [Math.ceil(maxTime / dt) + 10], the bound of the safety guard:
    [120 / (1 / 60)] is [7200], written [72 * 100]. *)
Definition guardLength : nat := 72 * 100 + 10.

(** The [while] loop of the run handler.  [fuel] only makes the recursion
    structural: the guard on [states.length] leaves the loop first (see
    [runLoop_total]). *)
Fixpoint runLoop
    (fuel : nat) (state : Simulation.SimulationState)
    (params : Simulation.SimulationParams)
    (states : list Simulation.SimulationState)
    : option (list Simulation.SimulationState) :=
  if Num.ltb (Simulation.time state) maxTime
     && negb (Simulation.phase_eqb (Simulation.phase state)
                                   Simulation.Recovery)
  then match fuel with
       | O => None
       | S fuel' =>
           let state' := Simulation.stepSimulation state params dt in
           let states' := states ++ [state'] in
           if Nat.ltb guardLength (List.length states') then Some states'
           else runLoop fuel' state' params states'
       end
  else Some states.

Definition telemetryOf (s : Simulation.SimulationState) : TelemetryPoint :=
  {| tl_time := Simulation.time s;
     tl_altitude := Simulation.altitude s;
     tl_velocity := Simulation.velocity s |}.

(** [POST] of the run handler; [None] only if [runLoop] ran out of fuel. *)
Definition runPOST (design : option RocketDesign) : option RunResponse :=
  match design with
  | None => Some (RunError "Missing design" 400)
  | Some design =>
      match DesignToSim.getSimParams design with
      | None => Some (RunError "Invalid motor or design" 400)
      | Some params =>
          let state := Simulation.createSimulationState params in
          match runLoop guardLength state params [state] with
          | None => None
          | Some states => Some (RunOk states (map telemetryOf states))
          end
      end
  end.

(** [POST] of the analysis handler. *)
Definition analyzePOST (design : option RocketDesign) : AnalyzeResponse :=
  match design with
  | None => AnalyzeError "Missing design" 400
  | Some design => AnalyzeOk (DesignToSim.getPreLaunchResults design)
  end.

End Routes.

(** ** Sample inputs *)

Module Samples.

Import Rocket.

Definition estesC6 : Motors.MotorSpec :=
  {| Motors.id := "estes-c6"; Motors.name := "Estes C6";
     Motors.totalImpulse := 10; Motors.burnTime := 1.6;
     Motors.propellantMass := 0.024; Motors.dryMass := 0.012;
     Motors.thrustAt := Motors.trapezoidalThrust 9 1.6 |}.

(** A small rocket on an Estes C6. *)
Definition sampleGeometry : RocketGeometry :=
  {| noseLength := 0.12; noseShape := ogive; bodyDiameter := 0.05;
     bodyLength := 0.4; finRootLeadingEdge := 0.45; finRootChord := 0.08;
     finTipChord := 0.04; finSemispan := 0.06; finSweep := 0.03;
     numFins := 3 |}.

Definition sampleDesign : RocketDesign :=
  {| geometry := sampleGeometry; bodyMass := 0.05; finMass := 0.01;
     noseMass := Some 0.02; payloadMass := 0.02; payloadPosition := 0.2;
     motorId := "estes-c6"; motorPosition := 0.48 |}.

(** The same rocket with a motor the catalog does not list. *)
Definition unknownMotorDesign : RocketDesign :=
  {| geometry := sampleGeometry; bodyMass := 0.05; finMass := 0.01;
     noseMass := Some 0.02; payloadMass := 0.02; payloadPosition := 0.2;
     motorId := "estes-z9"; motorPosition := 0.48 |}.

(** A cone-nosed rocket whose fins have no span. *)
Definition finless : RocketGeometry :=
  {| noseLength := 0.12; noseShape := cone; bodyDiameter := 0.05;
     bodyLength := 0.4; finRootLeadingEdge := 0.45; finRootChord := 0.08;
     finTipChord := 0.04; finSemispan := 0; finSweep := 0.03;
     numFins := 3 |}.

(** What [getSimParams] makes of [sampleDesign]. *)
Definition sampleParams : Simulation.SimulationParams :=
  {| Simulation.referenceArea := Barrowman.referenceArea sampleGeometry;
     Simulation.dryMass := 0.02 + 0.05 + 0.01 + 0.02 + 0.012;
     Simulation.motor := estesC6;
     Simulation.motorStartTime := Some 0;
     Simulation.deployAtApogee := Some true;
     Simulation.maxTrailPoints := Some 500 |}.

(** A state just past the peak. *)
Definition apogeeState : Simulation.SimulationState :=
  {| Simulation.time := 7; Simulation.altitude := 250;
     Simulation.velocity := -0.1; Simulation.acceleration := -9.81;
     Simulation.mass := 0.124; Simulation.mach := 0; Simulation.cd := 0.35;
     Simulation.airDensity := 1.18; Simulation.thrust := 0;
     Simulation.drag := 0; Simulation.phase := Simulation.Apogee;
     Simulation.apogee := 250; Simulation.trail := [] |}.

End Samples.

(** ** The vocabulary of the properties *)

Module Statements.

Import Rocket Simulation.

(** *** Drag *)

(** C2 as it is stated: the transonic branch meets the subsonic value at
    [0.8] and the supersonic branch at [1.2]. *)
Definition continuous_at_band_edges : Prop :=
  Drag.transonicCd 0.8 = 0.35
  /\ Drag.transonicCd 1.2 = Drag.supersonicCd 1.2.

(** *** Designs *)

(** The nose mass a design stands for: the given one, or the estimate. *)
Definition noseMassOf (d : RocketDesign) : R :=
  match noseMass d with
  | Some m => m
  | None =>
      (1 / 3) * PI * (bodyDiameter (geometry d) / 2) ^ 2
      * noseLength (geometry d) * 500
  end.

(** The wet mass of a design in the words of the specification: nose, body,
    fins, payload and motor casing, each once, plus the propellant. *)
Definition designWetMass (d : RocketDesign) (m : Motors.MotorSpec) : R :=
  noseMassOf d + bodyMass d + finMass d + payloadMass d
  + Motors.dryMass m + Motors.propellantMass m.

(** C1 as it is stated, for a design [d] whose motor is [m] and whose run
    starts in [s]. *)
Definition initial_state_as_claimed
    (d : RocketDesign) (m : Motors.MotorSpec) (s : SimulationState) : Prop :=
  phase s = Pre /\ time s = 0 /\ trail s = [] /\ thrust s = 0 /\ drag s = 0
  /\ mach s = 0 /\ cd s = 0
  /\ mass s = designWetMass d m.

(** The analysis of a design when the motor is taken to weigh [motorMass]:
    [getPreLaunchResults] with that number in the place of the lookup. *)
Definition preLaunchWithMotorMass (design : RocketDesign) (motorMass : R)
    : DesignToSim.PreLaunchResults :=
  let g := geometry design in
  let cp := Barrowman.centerOfPressure g in
  let cg :=
    CG.centerOfGravity
      {| CG.noseLength := noseLength g;
         CG.bodyLength := bodyLength g;
         CG.bodyDiameter := bodyDiameter g;
         CG.finRootLeadingEdge := finRootLeadingEdge g;
         CG.finRootChord := finRootChord g;
         CG.finTipChord := finTipChord g;
         CG.bodyMass := bodyMass design;
         CG.finMass := finMass design;
         CG.noseMass := noseMass design;
         CG.payloadMass := payloadMass design;
         CG.payloadPosition := payloadPosition design;
         CG.motorMass := motorMass;
         CG.motorPosition := motorPosition design |} in
  let stabilityCalibers := (cp - cg) / bodyDiameter g in
  {| DesignToSim.cp := cp; DesignToSim.cg := cg;
     DesignToSim.stabilityCalibers := stabilityCalibers;
     DesignToSim.isStable := Num.geb stabilityCalibers 1 |}.

(** *** Phases *)

Definition phase_rank (ph : Phase) : nat :=
  match ph with
  | Pre => 0 | Burn => 1 | Coast => 2 | Apogee => 3 | Recovery => 4
  end.

(** The order [pre < burn < coast < apogee < recovery], non-strictly. *)
Definition phase_le (a b : Phase) : Prop :=
  (phase_rank a <= phase_rank b)%nat.

(** *** The trail *)

(** Samples in the order they were taken: times never decrease. *)
Definition oldestFirst (l : list TrailPoint) : Prop :=
  StronglySorted (fun a b => tp_time a <= tp_time b) l.

(** The sample that the step leading to [s'] appends. *)
Definition sampleOf (s' : SimulationState) : TrailPoint :=
  {| tp_altitude := altitude s'; tp_velocity := velocity s';
     tp_mach := mach s'; tp_time := time s' |}.

Definition trailCapacity (p : SimulationParams) : R :=
  orElse (maxTrailPoints p) MAX_TRAIL.

(** *** Mass *)

Definition motorStart (p : SimulationParams) : R :=
  orElse (motorStartTime p) 0.

Definition burnoutTime (p : SimulationParams) : R :=
  motorStart p + Motors.burnTime (motor p).

(** [inBurn] of a step that arrives at time [t]. *)
Definition inBurnAt (p : SimulationParams) (t : R) : bool :=
  Num.geb t (motorStart p) && Num.ltb t (burnoutTime p).

(** Full wet mass: what [initialState] starts from. *)
Definition wetMass (p : SimulationParams) : R :=
  dryMass p + Motors.dryMass (motor p) + Motors.propellantMass (motor p).

Definition burnoutMass (p : SimulationParams) : R :=
  dryMass p + Motors.dryMass (motor p).

(** Linear depletion: the mass with the propellant left at time [t]. *)
Definition burningMass (p : SimulationParams) (t : R) : R :=
  dryMass p + Motors.dryMass (motor p)
  + Motors.propellantMass (motor p)
    * (1 - (t - motorStart p) / Motors.burnTime (motor p)).

(** The mass a state should have at its own time, in the words of C4. *)
Definition mass_on_schedule (p : SimulationParams) (s : SimulationState)
    : Prop :=
  (motorStart p <= time s < burnoutTime p -> mass s = burningMass p (time s))
  /\ (burnoutTime p <= time s -> mass s = burnoutMass p)
  /\ (time s < motorStart p -> mass s = wetMass p).

(** Not yet ignited, and the next step of length [dt] cannot jump over the
    burn. *)
Definition waiting (p : SimulationParams) (dt : R) (s : SimulationState)
    : Prop :=
  phase s = Pre /\ mass s = wetMass p /\ time s + dt < burnoutTime p.

Definition burning (p : SimulationParams) (s : SimulationState) : Prop :=
  phase s = Burn /\ motorStart p <= time s < burnoutTime p
  /\ mass s = burningMass p (time s).

Definition burnt (p : SimulationParams) (s : SimulationState) : Prop :=
  phase s <> Pre /\ phase s <> Burn /\ burnoutTime p <= time s
  /\ mass s = burnoutMass p.

(** What holds of a state that a step of length [dt] has produced. *)
Definition stepped (p : SimulationParams) (dt : R) (s : SimulationState)
    : Prop :=
  (waiting p dt s /\ time s < motorStart p) \/ burning p s \/ burnt p s.

End Statements.

(** ** [components/RocketSimulator.tsx]

    The two pure pieces of the component: the interpolation between two
    samples that the playback shows, and the merge of an edit into the
    design, which keeps the fins on the body tube. *)

Module Playback.

Import Rocket Simulation.

(** [interpolateState(a, b, frac)]: the spread [...a] leaves [phase] and
    [apogee] as they are in [a]. *)
Definition interpolateState (a b : SimulationState) (frac : R)
    : SimulationState :=
  let f := Rmax 0 (Rmin 1 frac) in
  {| time := time a + f * (time b - time a);
     altitude := altitude a + f * (altitude b - altitude a);
     velocity := velocity a + f * (velocity b - velocity a);
     acceleration := acceleration a + f * (acceleration b - acceleration a);
     mass := mass a + f * (mass b - mass a);
     mach := mach a + f * (mach b - mach a);
     cd := cd a + f * (cd b - cd a);
     airDensity := airDensity a + f * (airDensity b - airDensity a);
     thrust := thrust a + f * (thrust b - thrust a);
     drag := drag a + f * (drag b - drag a);
     phase := phase a;
     apogee := apogee a;
     trail := if Num.ltb f 0.5 then trail a else trail b |}.

(** [Partial<RocketDesign>]: every field may be absent. *)
Record DesignUpdates : Type := {
  u_geometry : option RocketGeometry;
  u_bodyMass : option R;
  u_finMass : option R;
  u_noseMass : option R;
  u_payloadMass : option R;
  u_payloadPosition : option R;
  u_motorId : option string;
  u_motorPosition : option R
}.

(** The function [handleDesignChange] hands to [setDesign]:
    [{ ...d, ...updates }], and when the edit carries a geometry,
    [{ ...d.geometry, ...updates.geometry }] (a whole geometry replaces the
    old one) with [finRootLeadingEdge] clamped. *)
Definition handleDesignChange (d : RocketDesign) (updates : DesignUpdates)
    : RocketDesign :=
  let next :=
    {| geometry := orElse (u_geometry updates) (geometry d);
       bodyMass := orElse (u_bodyMass updates) (bodyMass d);
       finMass := orElse (u_finMass updates) (finMass d);
       noseMass := match u_noseMass updates with
                   | Some m => Some m
                   | None => noseMass d
                   end;
       payloadMass := orElse (u_payloadMass updates) (payloadMass d);
       payloadPosition :=
         orElse (u_payloadPosition updates) (payloadPosition d);
       motorId := orElse (u_motorId updates) (motorId d);
       motorPosition := orElse (u_motorPosition updates) (motorPosition d) |}
  in
  match u_geometry updates with
  | Some g =>
      {| geometry :=
           {| noseLength := noseLength g;
              noseShape := noseShape g;
              bodyDiameter := bodyDiameter g;
              bodyLength := bodyLength g;
              finRootLeadingEdge :=
                Rmax (noseLength g + 0.01)
                     (Rmin (finRootLeadingEdge g)
                           (noseLength g + bodyLength g - 0.01));
              finRootChord := finRootChord g;
              finTipChord := finTipChord g;
              finSemispan := finSemispan g;
              finSweep := finSweep g;
              numFins := numFins g |};
         bodyMass := bodyMass next;
         finMass := finMass next;
         noseMass := noseMass next;
         payloadMass := payloadMass next;
         payloadPosition := payloadPosition next;
         motorId := motorId next;
         motorPosition := motorPosition next |}
  | None => next
  end.

End Playback.

(** ** [components/Scene.tsx]

    The lengths of the three force arrows of [SceneContent]. *)

Module Scene.

Import Simulation.

Record ArrowLengths : Type := {
  thrustLen : R;
  dragLen : R;
  gravityLen : R
}.

Definition arrowLengths (totalLength : R) (simState : option SimulationState)
    : ArrowLengths :=
  let weightForce :=
    match simState with Some s => 9.81 * mass s | None => 0 end in
  let thrustForce :=
    match simState with Some s => Rabs (thrust s) | None => 0 end in
  let dragForce :=
    match simState with Some s => Rabs (drag s) | None => 0 end in
  let refForce := Rmax (Rmax (Rmax thrustForce dragForce) weightForce) 0.1 in
  let baseLength := totalLength * 0.9 in
  {| thrustLen := (thrustForce / refForce) * baseLength;
     dragLen := (dragForce / refForce) * baseLength;
     gravityLen := (weightForce / refForce) * baseLength |}.

End Scene.

(** ** More vocabulary *)

Module Measures.

Import Simulation.

(** Total mass and total moment about the nose tip of a list of
    components. *)
Definition totalMass (l : list CG.MassComponent) : R :=
  fold_right (fun c acc => CG.mass c + acc) 0 l.

Definition totalMoment (l : list CG.MassComponent) : R :=
  fold_right (fun c acc => CG.mass c * CG.positionFromNose c + acc) 0 l.

(** The nose mass the centre-of-gravity path works with. *)
Definition cgNoseMass (p : CG.CGParams) : R :=
  match CG.noseMass p with
  | Some m => m
  | None =>
      (1 / 3) * PI * (CG.bodyDiameter p / 2) ^ 2 * CG.noseLength p * 500
  end.

(** The loop condition of [runToApogee]. *)
Definition climbing (maxTime : R) (s : SimulationState) : bool :=
  Num.ltb (time s) maxTime && negb (phase_eqb (phase s) Apogee).

(** The loop condition of the run handler. *)
Definition running (s : SimulationState) : bool :=
  Num.ltb (time s) Routes.maxTime && negb (phase_eqb (phase s) Recovery).

(** The first [n + 1] states of a trajectory. *)
Definition trajectoryPrefix (p : SimulationParams) (dt : R) (n : nat)
    : list SimulationState :=
  map (trajectory p dt) (seq 0 (S n)).

(** [x] lies between [a] and [b], whichever is the larger. *)
Definition between (a b x : R) : Prop := Rmin a b <= x <= Rmax a b.

End Measures.

(** * Properties *)

(** ** Reading the comparisons *)

Module NumFacts.

Lemma ltb_spec (x y : R) : reflect (x < y) (Num.ltb x y).
Proof. unfold Num.ltb. destruct (Rlt_dec x y); constructor; assumption. Qed.

Lemma leb_spec (x y : R) : reflect (x <= y) (Num.leb x y).
Proof. unfold Num.leb. destruct (Rle_dec x y); constructor; assumption. Qed.

Lemma geb_spec (x y : R) : reflect (y <= x) (Num.geb x y).
Proof. apply leb_spec. Qed.

Lemma gtb_spec (x y : R) : reflect (y < x) (Num.gtb x y).
Proof. apply ltb_spec. Qed.

Lemma ltb_true (x y : R) : x < y -> Num.ltb x y = true.
Proof. destruct (ltb_spec x y); tauto. Qed.

Lemma ltb_false (x y : R) : y <= x -> Num.ltb x y = false.
Proof. destruct (ltb_spec x y); intros; [lra | reflexivity]. Qed.

Lemma leb_true (x y : R) : x <= y -> Num.leb x y = true.
Proof. destruct (leb_spec x y); tauto. Qed.

Lemma leb_false (x y : R) : y < x -> Num.leb x y = false.
Proof. destruct (leb_spec x y); intros; [lra | reflexivity]. Qed.

Lemma geb_true (x y : R) : y <= x -> Num.geb x y = true.
Proof. apply leb_true. Qed.

Lemma geb_false (x y : R) : x < y -> Num.geb x y = false.
Proof. apply leb_false. Qed.

Lemma gtb_true (x y : R) : y < x -> Num.gtb x y = true.
Proof. apply ltb_true. Qed.

Lemma gtb_false (x y : R) : x <= y -> Num.gtb x y = false.
Proof. apply ltb_false. Qed.

End NumFacts.

(** Decides every comparison that appears in the goal from the real
    inequalities at hand. *)
Ltac decide_cmp :=
  repeat first
    [ rewrite NumFacts.ltb_true by lra
    | rewrite NumFacts.ltb_false by lra
    | rewrite NumFacts.leb_true by lra
    | rewrite NumFacts.leb_false by lra
    | rewrite NumFacts.geb_true by lra
    | rewrite NumFacts.geb_false by lra
    | rewrite NumFacts.gtb_true by lra
    | rewrite NumFacts.gtb_false by lra ].

(** ** The atmosphere *)

Module AtmosphereFacts.

Import Atmosphere.

Lemma density_pos (h : R) : 0 < density h.
Proof.
  unfold density, RHO0.
  destruct (NumFacts.leb_spec h 0); [lra |].
  pose proof (exp_pos (- h / 7400)). lra.
Qed.

Lemma density_at_ground (h : R) : h <= 0 -> density h = RHO0.
Proof. intros H. unfold density. now rewrite NumFacts.leb_true. Qed.

Lemma density_above_ground (h : R) :
  0 < h -> density h = RHO0 * exp (- h / 7400).
Proof. intros H. unfold density. now rewrite NumFacts.leb_false. Qed.

Lemma density_decreasing (h1 h2 : R) :
  0 <= h1 -> h1 < h2 -> density h2 < density h1.
Proof.
  intros H0 H12.
  rewrite (density_above_ground h2) by lra.
  assert (Hexp : exp (- h2 / 7400) < 1).
  { rewrite <- exp_0. apply exp_increasing. lra. }
  destruct (Rle_lt_or_eq_dec 0 h1 H0) as [Hpos | <-].
  - rewrite (density_above_ground h1) by assumption.
    assert (exp (- h2 / 7400) < exp (- h1 / 7400))
      by (apply exp_increasing; lra).
    unfold RHO0. lra.
  - rewrite density_at_ground by lra. unfold RHO0. lra.
Qed.

Lemma temperature_nonincreasing (h1 h2 : R) :
  h1 <= h2 -> temperature h2 <= temperature h1.
Proof.
  intros H12.
  unfold temperature, T0, LAPSE, TROPOPAUSE_ALT, T_TROP.
  destruct (NumFacts.leb_spec h1 0), (NumFacts.leb_spec h2 0),
           (NumFacts.leb_spec h1 11000), (NumFacts.leb_spec h2 11000); lra.
Qed.

Lemma temperature_pos (h : R) : 0 < temperature h.
Proof.
  unfold temperature, T0, LAPSE, TROPOPAUSE_ALT, T_TROP.
  destruct (NumFacts.leb_spec h 0), (NumFacts.leb_spec h 11000); lra.
Qed.

(** C9. For altitudes [0 <= h1 < h2] the density is strictly smaller at [h2]
    and the temperature is not larger at [h2]; and at every altitude
    [h >= 0] the pressure is exactly [density h * 287.05 * temperature h]. *)
Theorem atmosphere_monotone_and_gas_law :
  (forall h1 h2 : R,
      0 <= h1 -> h1 < h2 ->
      density h2 < density h1 /\ temperature h2 <= temperature h1)
  /\ (forall h : R,
         0 <= h -> pressure h = density h * 287.05 * temperature h).
Proof.
  split.
  - intros h1 h2 H0 H12. split.
    + now apply density_decreasing.
    + apply temperature_nonincreasing. lra.
  - intros h _. reflexivity.
Qed.

Lemma atmosphere_monotone_and_gas_law_witness :
  (density 1000 < density 0 /\ temperature 1000 <= temperature 0)
  /\ pressure 1000 = density 1000 * 287.05 * temperature 1000.
Proof.
  split.
  - apply (proj1 atmosphere_monotone_and_gas_law 0 1000); lra.
  - apply (proj2 atmosphere_monotone_and_gas_law 1000); lra.
Defined.

End AtmosphereFacts.

(** ** The drag curve *)

Module DragFacts.

Import Drag Statements.

Lemma PI_upper : PI <= 3.25.
Proof.
  destruct (PI_2_3_7_ineq 0) as [_ H].
  unfold sum_f_R0, tg_alt, PI_2_3_7_tg, Ratan_seq in H. simpl in H.
  lra.
Qed.

Lemma sin_near_PI (t : R) : t <= 1 -> sin (PI * t) <= PI * (1 - t).
Proof.
  intros Ht.
  replace (PI * t) with (PI - PI * (1 - t)) by ring.
  rewrite sin_PI_x.
  destruct (Rle_lt_or_eq_dec t 1 Ht) as [Hlt | ->].
  - apply Rlt_le, sin_lt_x. pose proof PI_RGT_0. nra.
  - replace (PI * (1 - 1)) with 0 by ring. rewrite sin_0. lra.
Qed.

Lemma sin_band_nonneg (t : R) : 0 <= t <= 1 -> 0 <= sin (PI * t).
Proof.
  intros [H0 H1]. pose proof PI_RGT_0.
  apply sin_ge_0; nra.
Qed.

(** The bump: [0.65 t + 0.3 sin (PI t)] stays below [0.75] on the band. *)
Lemma bump_upper (t : R) :
  0 <= t <= 1 -> t * (1.0 - 0.35) + 0.3 * sin (PI * t) <= 0.75.
Proof.
  intros [H0 H1].
  destruct (Rle_dec t (9 / 13)) as [Hlow | Hhigh].
  - pose proof (SIN_bound (PI * t)). lra.
  - pose proof (sin_near_PI t H1). pose proof PI_upper.
    assert (PI * (1 - t) <= 3.25 * (1 - t)) by nra.
    lra.
Qed.

Lemma transonicCd_range (m : R) :
  0.8 <= m <= 1.2 -> 0.35 <= transonicCd m <= 1.1.
Proof.
  intros Hm. unfold transonicCd.
  assert (Ht : 0 <= (m - 0.8) / 0.4 <= 1) by lra.
  pose proof (sin_band_nonneg _ Ht). pose proof (bump_upper _ Ht).
  lra.
Qed.

Lemma supersonicCd_range (m : R) :
  1.2 < m -> 0.56 <= supersonicCd m < 0.6.
Proof.
  intros Hm. unfold supersonicCd.
  pose proof (Rmin_r (m - 1.2) 2).
  assert (0 < Rmin (m - 1.2) 2) by (apply Rmin_glb_lt; lra).
  lra.
Qed.

Lemma dragCoefficient_subsonic (m : R) : m < 0.8 -> dragCoefficient m = 0.35.
Proof. intros H. unfold dragCoefficient. now rewrite NumFacts.ltb_true. Qed.

Lemma dragCoefficient_transonic (m : R) :
  0.8 <= m <= 1.2 -> dragCoefficient m = transonicCd m.
Proof.
  intros H. unfold dragCoefficient.
  rewrite NumFacts.ltb_false, NumFacts.leb_true by lra. reflexivity.
Qed.

Lemma dragCoefficient_supersonic (m : R) :
  1.2 < m -> dragCoefficient m = supersonicCd m.
Proof.
  intros H. unfold dragCoefficient.
  rewrite NumFacts.ltb_false, NumFacts.leb_false by lra. reflexivity.
Qed.

Lemma dragCoefficient_range (m : R) : 0.35 <= dragCoefficient m <= 1.1.
Proof.
  destruct (Rlt_dec m 0.8) as [Hsub | Hsub].
  - rewrite dragCoefficient_subsonic by assumption. lra.
  - destruct (Rle_dec m 1.2) as [Htr | Htr].
    + rewrite dragCoefficient_transonic by lra.
      apply transonicCd_range. lra.
    + rewrite dragCoefficient_supersonic by lra.
      pose proof (supersonicCd_range m). lra.
Qed.

Lemma transonicCd_lower_edge : transonicCd 0.8 = 0.35.
Proof.
  unfold transonicCd.
  replace ((0.8 - 0.8) / 0.4) with 0 by lra.
  rewrite Rmult_0_r, sin_0. lra.
Qed.

Lemma transonicCd_upper_edge : transonicCd 1.2 = 1.
Proof.
  unfold transonicCd.
  replace ((1.2 - 0.8) / 0.4) with 1 by lra.
  rewrite Rmult_1_r, sin_PI. lra.
Qed.

Lemma supersonicCd_edge : supersonicCd 1.2 = 0.6.
Proof.
  unfold supersonicCd.
  replace (1.2 - 1.2) with 0 by lra.
  rewrite Rmin_left by lra. lra.
Qed.

Lemma sin_le_arg (y : R) : 0 <= y -> sin y <= y.
Proof.
  intros [Hpos | <-].
  - apply Rlt_le, sin_lt_x, Hpos.
  - rewrite sin_0. lra.
Qed.

(** Above the lower edge the transonic branch leaves [0.35] no faster than
    five per unit of Mach. *)
Lemma transonicCd_near_lower_edge (m : R) :
  0.8 <= m <= 1.2 -> 0 <= transonicCd m - 0.35 <= 5 * (m - 0.8).
Proof.
  intros Hm. unfold transonicCd.
  assert (Ht : 0 <= (m - 0.8) / 0.4 <= 1) by lra.
  pose proof (sin_band_nonneg _ Ht) as Hsin.
  pose proof PI_RGT_0 as Hpi. pose proof PI_upper as Hpi'.
  assert (Harg : 0 <= PI * ((m - 0.8) / 0.4)) by nra.
  pose proof (sin_le_arg _ Harg) as Hle.
  assert (PI * ((m - 0.8) / 0.4) <= 3.25 * ((m - 0.8) / 0.4)) by nra.
  lra.
Qed.

(** The curve is continuous at [mach = 0.8] ... *)
Lemma dragCoefficient_continuous_lower_edge :
  continuity_pt dragCoefficient 0.8.
Proof.
  unfold continuity_pt, continue_in, limit1_in, limit_in. cbn.
  unfold R_dist. intros eps Heps.
  exists (Rmin (eps / 5) 0.4). split.
  - apply Rmin_glb_lt; lra.
  - intros m [_ Hdist].
    pose proof (Rmin_l (eps / 5) 0.4). pose proof (Rmin_r (eps / 5) 0.4).
    rewrite (dragCoefficient_transonic 0.8), transonicCd_lower_edge by lra.
    destruct (Rlt_dec m 0.8) as [Hsub | Hsub].
    + rewrite dragCoefficient_subsonic by assumption.
      rewrite Rminus_diag, Rabs_R0. exact Heps.
    + assert (Hm : 0.8 <= m <= 1.2).
      { apply Rabs_def2 in Hdist. lra. }
      rewrite dragCoefficient_transonic by assumption.
      pose proof (transonicCd_near_lower_edge m Hm).
      apply Rabs_def2 in Hdist. apply Rabs_def1; lra.
Qed.

(** ... and jumps at [mach = 1.2]. *)
Lemma dragCoefficient_jumps_at_upper_edge :
  ~ continuity_pt dragCoefficient 1.2.
Proof.
  unfold continuity_pt, continue_in, limit1_in, limit_in. cbn.
  unfold R_dist, D_x, no_cond. intros Hcont.
  destruct (Hcont 0.4 ltac:(lra)) as (alp & Halp & Hnear).
  specialize (Hnear (1.2 + alp / 2)).
  rewrite (dragCoefficient_transonic 1.2), transonicCd_upper_edge in Hnear
    by lra.
  rewrite dragCoefficient_supersonic in Hnear by lra.
  pose proof (supersonicCd_range (1.2 + alp / 2) ltac:(lra)) as Hsup.
  assert (Hclose : Rabs (supersonicCd (1.2 + alp / 2) - 1) < 0.4).
  { apply Hnear. split; [split; [exact I | lra] |].
    apply Rabs_def1; lra. }
  apply Rabs_def2 in Hclose. lra.
Qed.

(** C10. Every drag coefficient lies in [[0.35, 1.1]], so it is never zero,
    and it is exactly [0.35] for every Mach number below [0.8]. *)
Theorem dragCoefficient_bounds :
  forall m : R,
    0.35 <= dragCoefficient m <= 1.1
    /\ dragCoefficient m <> 0
    /\ (m < 0.8 -> dragCoefficient m = 0.35).
Proof.
  intros m. pose proof (dragCoefficient_range m) as Hr.
  repeat split; try lra.
  apply dragCoefficient_subsonic.
Qed.

Lemma dragCoefficient_bounds_witness :
  dragCoefficient 0 = 0.35 /\ dragCoefficient (-1) = 0.35.
Proof.
  split.
  - apply (proj2 (proj2 (dragCoefficient_bounds 0))). lra.
  - apply (proj2 (proj2 (dragCoefficient_bounds (-1)))). lra.
Defined.

(** C2, refuted as stated: at [mach = 1.2] the transonic branch gives [1]
    and the supersonic branch gives [0.6]. *)
Lemma band_edges_not_continuous : ~ continuous_at_band_edges.
Proof.
  intros [_ H].
  rewrite transonicCd_upper_edge, supersonicCd_edge in H. lra.
Qed.

(** C2, amended. The transonic branch meets the subsonic value [0.35] at
    [mach = 0.8], where [dragCoefficient] takes that branch; at [mach = 1.2]
    the transonic branch, which [dragCoefficient] still takes there, gives
    [1], the supersonic branch gives [0.6], and every coefficient above
    [1.2] is below [0.6]: the curve drops by [0.4] across the upper edge.
    As a function of Mach, [dragCoefficient] is continuous at [0.8] and not
    continuous at [1.2]. *)
Theorem drag_curve_at_band_edges :
  transonicCd 0.8 = 0.35
  /\ dragCoefficient 0.8 = 0.35
  /\ transonicCd 1.2 = 1
  /\ dragCoefficient 1.2 = 1
  /\ supersonicCd 1.2 = 0.6
  /\ (forall m : R, 1.2 < m -> dragCoefficient m < 0.6)
  /\ continuity_pt dragCoefficient 0.8
  /\ ~ continuity_pt dragCoefficient 1.2.
Proof.
  split; [apply transonicCd_lower_edge |].
  split; [rewrite dragCoefficient_transonic by lra;
          apply transonicCd_lower_edge |].
  split; [apply transonicCd_upper_edge |].
  split; [rewrite dragCoefficient_transonic by lra;
          apply transonicCd_upper_edge |].
  split; [apply supersonicCd_edge |].
  split; [| split].
  - intros m Hm. rewrite dragCoefficient_supersonic by assumption.
    apply supersonicCd_range. assumption.
  - apply dragCoefficient_continuous_lower_edge.
  - apply dragCoefficient_jumps_at_upper_edge.
Qed.

Lemma drag_curve_at_band_edges_witness : dragCoefficient 2 < 0.6.
Proof.
  apply (proj1 (proj2 (proj2 (proj2 (proj2 (proj2
           drag_curve_at_band_edges))))) 2).
  lra.
Defined.

End DragFacts.

(** ** Centre of pressure *)

Module BarrowmanFacts.

Import Rocket Barrowman Samples.

Lemma noseTerms_CN (ln : R) (shape : NoseShape) : CN (noseTerms ln shape) = 2.
Proof. reflexivity. Qed.

Lemma noseTerms_X (g : RocketGeometry) :
  X (noseTerms (noseLength g) (noseShape g))
  = match noseShape g with
    | cone => (2 / 3) * noseLength g
    | ogive => 0.466 * noseLength g
    end.
Proof. reflexivity. Qed.

(** Fins of zero semispan carry no normal force. *)
Lemma finTerms_CN_zero_semispan (g : RocketGeometry) :
  finSemispan g = 0 -> CN (finTerms g) = 0.
Proof.
  intros HS. unfold finTerms. cbn [CN]. rewrite HS.
  assert (Hsq : (0 / bodyDiameter g) ^ 2 = 0)
    by (unfold Rdiv; rewrite Rmult_0_l; simpl; ring).
  rewrite Hsq. unfold Rdiv. ring.
Qed.

(** C7. Take a geometry in which no quotient of [finTerms] has the divisor
    0: the body diameter, the semispan plus the body radius, and the sum of
    the root and tip chords are not 0 (the source divides by each of them,
    and a zero divisor gives it an infinite or undefined fin term).  When
    the fin normal-force coefficient of such a geometry is [0], as it is
    for fins of zero semispan, the centre of pressure is the nose-only
    offset: [(2/3) * noseLength] for a cone and [0.466 * noseLength] for an
    ogive. *)
Theorem centerOfPressure_nose_only :
  forall g : RocketGeometry,
    bodyDiameter g <> 0 ->
    finSemispan g + bodyDiameter g / 2 <> 0 ->
    finRootChord g + finTipChord g <> 0 ->
    CN (finTerms g) = 0 ->
    centerOfPressure g =
      match noseShape g with
      | cone => (2 / 3) * noseLength g
      | ogive => 0.466 * noseLength g
      end.
Proof.
  intros g _ _ _ Hfin. unfold centerOfPressure. cbv zeta.
  rewrite Hfin, noseTerms_CN, noseTerms_X.
  rewrite NumFacts.leb_false by lra.
  destruct (noseShape g); field.
Qed.

Lemma centerOfPressure_nose_only_witness :
  centerOfPressure finless = (2 / 3) * 0.12.
Proof.
  apply (centerOfPressure_nose_only finless).
  - cbn. lra.
  - cbn. lra.
  - cbn. lra.
  - apply finTerms_CN_zero_semispan. reflexivity.
Defined.

End BarrowmanFacts.

(** ** From a design to a run *)

Module DesignFacts.

Import Rocket Simulation DesignToSim Samples Statements.

Lemma getSimParams_resolved (d : RocketDesign) (m : Motors.MotorSpec) :
  Motors.getMotor (motorId d) = Some m ->
  exists p : SimulationParams,
    getSimParams d = Some p
    /\ motor p = m
    /\ dryMass p =
         noseMassOf d + bodyMass d + finMass d + payloadMass d
         + Motors.dryMass m
    /\ motorStartTime p = Some 0
    /\ maxTrailPoints p = Some 500.
Proof.
  intros Hm. unfold getSimParams. rewrite Hm.
  eexists. split; [reflexivity |]. cbn.
  unfold noseMassOf, orElse. destruct (noseMass d); repeat split.
Qed.

Lemma getSimParams_unresolved (d : RocketDesign) :
  Motors.getMotor (motorId d) = None -> getSimParams d = None.
Proof. intros Hm. unfold getSimParams. now rewrite Hm. Qed.

Lemma initial_cd (p : SimulationParams) : cd (createSimulationState p) = 0.35.
Proof.
  cbn. apply DragFacts.dragCoefficient_subsonic. lra.
Qed.

(** The state a run starts from carries the casing of the motor twice: once
    inside [dryMass], where [getSimParams] puts it, and once more where
    [initialState] adds [motor.dryMass]. *)
Lemma initial_mass_of_design (d : RocketDesign) (m : Motors.MotorSpec)
    (p : SimulationParams) :
  Motors.getMotor (motorId d) = Some m ->
  getSimParams d = Some p ->
  mass (createSimulationState p) = designWetMass d m + Motors.dryMass m.
Proof.
  intros Hm Hp.
  destruct (getSimParams_resolved d m Hm) as (p' & Hp' & Hmot & Hdry & _).
  rewrite Hp in Hp'. injection Hp' as <-.
  cbn. rewrite Hmot, Hdry. unfold designWetMass. ring.
Qed.

Lemma getMotor_estesC6 : Motors.getMotor "estes-c6" = Some estesC6.
Proof. reflexivity. Qed.

(** C1, refuted as stated: the run of [sampleDesign] starts with drag
    coefficient [0.35], not [0], and with a mass that exceeds the wet mass
    of the design by the casing of the motor. *)
Lemma initial_state_not_as_claimed :
  Motors.getMotor (motorId sampleDesign) = Some estesC6
  /\ exists s : SimulationState,
       createInitialSimState sampleDesign = Some s
       /\ cd s = 0.35
       /\ mass s = designWetMass sampleDesign estesC6 + 0.012
       /\ ~ initial_state_as_claimed sampleDesign estesC6 s.
Proof.
  split; [reflexivity |].
  destruct (getSimParams_resolved sampleDesign estesC6 eq_refl)
    as (p & Hp & Hmot & Hdry & _).
  exists (createSimulationState p).
  assert (Hmass : mass (createSimulationState p)
                  = designWetMass sampleDesign estesC6 + 0.012)
    by (rewrite (initial_mass_of_design sampleDesign estesC6 p eq_refl Hp);
        reflexivity).
  unfold createInitialSimState. rewrite Hp.
  repeat split; [apply initial_cd | exact Hmass |].
  intros (_ & _ & _ & _ & _ & _ & Hcd & _).
  rewrite initial_cd in Hcd. lra.
Qed.

(** C1, amended. For a design whose motor resolves, [getSimParams] succeeds
    and the state created from its parameters is at rest on the ground in
    phase [pre] at time [0], with an empty trail, no thrust and no drag,
    Mach [0], the subsonic drag coefficient [dragCoefficient 0 = 0.35], and
    mass [dryMass + motor.dryMass + motor.propellantMass] of those
    parameters. *)
Theorem initial_state_of_design :
  forall (d : RocketDesign) (m : Motors.MotorSpec),
    Motors.getMotor (motorId d) = Some m ->
    exists p : SimulationParams,
      getSimParams d = Some p
      /\ motor p = m
      /\ createInitialSimState d = Some (createSimulationState p)
      /\ let s := createSimulationState p in
         phase s = Pre /\ time s = 0 /\ altitude s = 0 /\ velocity s = 0
         /\ trail s = [] /\ thrust s = 0 /\ drag s = 0 /\ mach s = 0
         /\ cd s = Drag.dragCoefficient 0 /\ cd s = 0.35
         /\ mass s = dryMass p + Motors.dryMass m + Motors.propellantMass m.
Proof.
  intros d m Hm.
  destruct (getSimParams_resolved d m Hm) as (p & Hp & Hmot & _).
  exists p. split; [exact Hp |]. split; [exact Hmot |].
  split; [unfold createInitialSimState; now rewrite Hp |].
  cbv zeta. repeat split.
  - apply initial_cd.
  - cbn. rewrite Hmot. ring.
Qed.

Lemma initial_state_of_design_witness :
  exists p : SimulationParams,
    getSimParams sampleDesign = Some p
    /\ phase (createSimulationState p) = Pre
    /\ cd (createSimulationState p) = 0.35.
Proof.
  destruct (initial_state_of_design sampleDesign estesC6 eq_refl)
    as (p & Hp & _ & _ & Hs).
  exists p. cbv zeta in Hs. tauto.
Defined.

End DesignFacts.

(** ** The request handlers *)

Module RoutesFacts.

Import Rocket DesignToSim Routes Samples Statements.

(** The guard on [states.length] ends the loop before the fuel does. *)
Lemma runLoop_total (fuel : nat) :
  forall (state : Simulation.SimulationState)
         (params : Simulation.SimulationParams)
         (states : list Simulation.SimulationState),
    (List.length states <= guardLength)%nat ->
    (guardLength + 1 <= fuel + List.length states)%nat ->
    exists out, runLoop fuel state params states = Some out.
Proof.
  induction fuel as [| fuel IH]; intros state params states Hlen Hfuel.
  - lia.
  - cbn [runLoop].
    destruct (Num.ltb _ _ && negb _); [| eauto].
    destruct (Nat.ltb_spec guardLength
                (List.length (states ++ [Simulation.stepSimulation
                                            state params dt])))
      as [Hbreak | Hgo]; [eauto |].
    apply IH; [exact Hgo |].
    rewrite length_app. cbn [List.length]. lia.
Qed.

(** The run handler always answers. *)
Lemma runPOST_total (body : option RocketDesign) :
  exists response, runPOST body = Some response.
Proof.
  destruct body as [design |]; cbn [runPOST]; [| eauto].
  destruct (getSimParams design) as [params |]; [| eauto].
  destruct (runLoop_total guardLength
              (Simulation.createSimulationState params) params
              [Simulation.createSimulationState params])
    as [out Hout].
  - unfold guardLength. cbn [List.length]. lia.
  - cbn [List.length]. lia.
  - rewrite Hout. eauto.
Qed.

Lemma getPreLaunchResults_resolved (d : RocketDesign) (m : Motors.MotorSpec) :
  Motors.getMotor (motorId d) = Some m ->
  getPreLaunchResults d =
    preLaunchWithMotorMass d (Motors.propellantMass m + Motors.dryMass m).
Proof.
  intros Hm. unfold getPreLaunchResults, preLaunchWithMotorMass, cgParams.
  now rewrite Hm.
Qed.

(** C6. For a design whose motor the catalog does not list, [getSimParams]
    is [null] and the run handler answers with the error
    ["Invalid motor or design"] (status 400), while the analysis handler
    answers with the complete analysis computed for a motor of [0.03] kg. *)
Theorem unknown_motor_policy :
  forall d : RocketDesign,
    Motors.getMotor (motorId d) = None ->
    getSimParams d = None
    /\ createInitialSimState d = None
    /\ runPOST (Some d) = Some (RunError "Invalid motor or design" 400)
    /\ getPreLaunchResults d = preLaunchWithMotorMass d 0.03
    /\ analyzePOST (Some d) = AnalyzeOk (preLaunchWithMotorMass d 0.03).
Proof.
  intros d Hm.
  assert (Hp : getSimParams d = None)
    by now apply DesignFacts.getSimParams_unresolved.
  assert (Hpre : getPreLaunchResults d = preLaunchWithMotorMass d 0.03).
  { unfold getPreLaunchResults, preLaunchWithMotorMass, cgParams.
    now rewrite Hm. }
  repeat split.
  - exact Hp.
  - unfold createInitialSimState. now rewrite Hp.
  - cbn [runPOST]. now rewrite Hp.
  - exact Hpre.
  - cbn [analyzePOST]. now rewrite Hpre.
Qed.

Lemma unknown_motor_policy_witness :
  getSimParams unknownMotorDesign = None
  /\ runPOST (Some unknownMotorDesign)
     = Some (RunError "Invalid motor or design" 400)
  /\ CG.motorMass (cgParams unknownMotorDesign) = 0.03.
Proof.
  destruct (unknown_motor_policy unknownMotorDesign eq_refl)
    as (Hp & _ & Hrun & _ & _).
  repeat split; assumption.
Defined.

End RoutesFacts.

(** ** The integrator *)

Module SimulationFacts.

Import Simulation Samples Statements.

(** *** What a step writes into each field *)

Section Step.

Variables (s : SimulationState) (p : SimulationParams) (dt : R).

Lemma step_time : time (stepSimulation s p dt) = time s + dt.
Proof. reflexivity. Qed.

Lemma step_velocity :
  velocity (stepSimulation s p dt)
  = velocity s + acceleration (stepSimulation s p dt) * dt.
Proof. reflexivity. Qed.

Lemma step_altitude :
  altitude (stepSimulation s p dt)
  = Rmax 0 (altitude s + velocity s * dt
            + 0.5 * acceleration (stepSimulation s p dt) * dt * dt).
Proof. reflexivity. Qed.

Lemma step_acceleration :
  acceleration (stepSimulation s p dt)
  = if Num.gtb (mass (stepSimulation s p dt)) 0
    then (thrust (stepSimulation s p dt) + drag (stepSimulation s p dt)
          + - G * mass (stepSimulation s p dt))
         / mass (stepSimulation s p dt)
    else 0.
Proof. reflexivity. Qed.

Lemma step_mass :
  mass (stepSimulation s p dt)
  = if inBurnAt p (time s + dt) then
      dryMass p + Motors.dryMass (motor p) + Motors.propellantMass (motor p)
      - ((time s + dt - motorStart p) / Motors.burnTime (motor p))
        * Motors.propellantMass (motor p)
    else if Num.geb (time s + dt) (burnoutTime p)
            && phase_eqb (phase s) Burn then
      dryMass p + Motors.dryMass (motor p)
    else mass s.
Proof.
  unfold stepSimulation, inBurnAt, burnoutTime, motorStart. cbn [mass].
  destruct (Num.geb _ _ && Num.ltb _ _); reflexivity.
Qed.

Lemma step_phase :
  phase (stepSimulation s p dt)
  = match phase s with
    | Pre =>
        if Num.leb (motorStart p) (time s + dt)
        then (if inBurnAt p (time s + dt) then Burn
              else if Num.ltb (velocity s) 0 then Apogee else Coast)
        else Pre
    | Burn =>
        if inBurnAt p (time s + dt) then Burn
        else if Num.ltb (velocity s) 0 then Apogee else Coast
    | Coast => if Num.ltb (velocity s) 0 then Apogee else Coast
    | Apogee => Recovery
    | Recovery => Recovery
    end.
Proof.
  unfold stepSimulation, inBurnAt, burnoutTime, motorStart, Num.geb.
  cbn [phase].
  destruct (phase s), (Num.leb _ (time s + dt)), (Num.ltb (time s + dt) _),
           (Num.ltb (velocity s) 0); reflexivity.
Qed.

Lemma step_trail :
  trail (stepSimulation s p dt)
  = let pushed :=
      trail s ++
      [ {| tp_altitude := altitude (stepSimulation s p dt);
           tp_velocity := velocity (stepSimulation s p dt);
           tp_mach := mach (stepSimulation s p dt);
           tp_time := time s + dt |} ] in
    if Num.gtb (INR (List.length pushed)) (orElse (maxTrailPoints p) MAX_TRAIL)
    then shift pushed else pushed.
Proof. reflexivity. Qed.

End Step.

Lemma step_phase_le (s : SimulationState) (p : SimulationParams) (dt : R) :
  phase_le (phase s) (phase (stepSimulation s p dt)).
Proof.
  rewrite step_phase. unfold phase_le.
  destruct (phase s);
    repeat match goal with
           | |- context [if ?b then _ else _] => destruct b
           end; cbn; lia.
Qed.

Lemma step_phase_apogee (s : SimulationState) (p : SimulationParams) (dt : R) :
  phase s = Apogee -> phase (stepSimulation s p dt) = Recovery.
Proof. intros H. rewrite step_phase, H. reflexivity. Qed.

Lemma step_phase_recovery
    (s : SimulationState) (p : SimulationParams) (dt : R) :
  phase s = Recovery -> phase (stepSimulation s p dt) = Recovery.
Proof. intros H. rewrite step_phase, H. reflexivity. Qed.

Lemma trajectory_phase_le (p : SimulationParams) (dt : R) (i j : nat) :
  (i <= j)%nat ->
  phase_le (phase (trajectory p dt i)) (phase (trajectory p dt j)).
Proof.
  induction 1 as [| j _ IH]; unfold phase_le in *.
  - lia.
  - pose proof (step_phase_le (trajectory p dt j) p dt) as Hstep.
    unfold phase_le in Hstep. cbn [trajectory]. lia.
Qed.

Lemma trajectory_recovery (p : SimulationParams) (dt : R) (i j : nat) :
  (i <= j)%nat ->
  phase (trajectory p dt i) = Recovery ->
  phase (trajectory p dt j) = Recovery.
Proof.
  induction 1 as [| j _ IH]; intros Hi; [exact Hi |].
  cbn [trajectory]. apply step_phase_recovery, IH, Hi.
Qed.

(** C3. No step moves the phase backwards in the order
    [pre < burn < coast < apogee < recovery]; a state in [apogee] steps to
    [recovery] and a state in [recovery] stays there; hence along the
    trajectory from the initial state the phase of a later state is never
    earlier than that of a former one, [apogee] is left for [recovery] on
    the next step, and [recovery] is kept for ever. *)
Theorem phase_never_regresses :
  forall (p : SimulationParams) (dt : R),
    (forall s : SimulationState,
        phase_le (phase s) (phase (stepSimulation s p dt))
        /\ (phase s = Apogee -> phase (stepSimulation s p dt) = Recovery)
        /\ (phase s = Recovery -> phase (stepSimulation s p dt) = Recovery))
    /\ (forall i j : nat,
          (i <= j)%nat ->
          phase_le (phase (trajectory p dt i)) (phase (trajectory p dt j)))
    /\ (forall i : nat,
          phase (trajectory p dt i) = Apogee ->
          phase (trajectory p dt (S i)) = Recovery)
    /\ (forall i j : nat,
          (i <= j)%nat ->
          phase (trajectory p dt i) = Recovery ->
          phase (trajectory p dt j) = Recovery).
Proof.
  intros p dt. repeat split.
  - apply step_phase_le.
  - apply step_phase_apogee.
  - apply step_phase_recovery.
  - apply trajectory_phase_le.
  - intros i. apply step_phase_apogee.
  - apply trajectory_recovery.
Qed.

(** *** Kinematics *)

Lemma step_altitude_nonneg
    (s : SimulationState) (p : SimulationParams) (dt : R) :
  0 <= altitude (stepSimulation s p dt).
Proof. rewrite step_altitude. apply Rmax_l. Qed.

Lemma trajectory_altitude_nonneg (p : SimulationParams) (dt : R) (n : nat) :
  0 <= altitude (trajectory p dt n).
Proof.
  destruct n; cbn [trajectory].
  - cbn. lra.
  - apply step_altitude_nonneg.
Qed.

(** C5. A step integrates with the acceleration it has just computed, net
    force over mass: [velocity' = velocity + acceleration * dt] and
    [altitude' = max 0 (altitude + velocity * dt + 0.5 * acceleration * dt^2)];
    so no output lies below the ground, the initial state is on it, and no
    state of a trajectory is below it. *)
Theorem kinematic_update :
  forall (s : SimulationState) (p : SimulationParams) (dt : R),
    let s' := stepSimulation s p dt in
    let a := acceleration s' in
    a = (if Num.gtb (mass s') 0
         then (thrust s' + drag s' + - G * mass s') / mass s'
         else 0)
    /\ velocity s' = velocity s + a * dt
    /\ altitude s' = Rmax 0 (altitude s + velocity s * dt + 0.5 * a * dt * dt)
    /\ 0 <= altitude s'
    /\ altitude (createSimulationState p) = 0
    /\ (forall n : nat, 0 <= altitude (trajectory p dt n)).
Proof.
  intros s p dt s' a. subst s' a.
  split; [apply step_acceleration |].
  split; [apply step_velocity |].
  split; [apply step_altitude |].
  split; [apply step_altitude_nonneg |].
  split; [reflexivity |].
  apply trajectory_altitude_nonneg.
Qed.

Lemma step_trail_cases
    (s : SimulationState) (p : SimulationParams) (dt : R) :
  let pushed := trail s ++ [sampleOf (stepSimulation s p dt)] in
  trail (stepSimulation s p dt)
  = if Num.gtb (INR (List.length pushed)) (trailCapacity p)
    then shift pushed else pushed.
Proof. reflexivity. Qed.

Lemma step_trail_length
    (s : SimulationState) (p : SimulationParams) (dt : R) :
  INR (List.length (trail s)) <= trailCapacity p ->
  INR (List.length (trail (stepSimulation s p dt))) <= trailCapacity p.
Proof.
  intros Hlen. rewrite step_trail_cases. cbv zeta.
  destruct (NumFacts.gtb_spec
              (INR (List.length
                      (trail s ++ [sampleOf (stepSimulation s p dt)])))
              (trailCapacity p)) as [Hover | Hfit].
  - unfold shift. destruct (trail s) as [| q l]; cbn [app tl].
    + exact Hlen.
    + rewrite length_app. cbn [List.length] in *.
      replace (List.length l + 1)%nat with (S (List.length l)) by lia.
      exact Hlen.
  - lra.
Qed.

Lemma oldestFirst_snoc (l : list TrailPoint) (x : TrailPoint) :
  oldestFirst l ->
  Forall (fun q => tp_time q <= tp_time x) l ->
  oldestFirst (l ++ [x]).
Proof.
  unfold oldestFirst. induction 1 as [| y l Hl IH Hy]; intros Hx; cbn.
  - repeat constructor.
  - inversion Hx as [| ? ? Hyx Hlx]; subst.
    constructor; [now apply IH |].
    apply Forall_app. split; [exact Hy |].
    constructor; [exact Hyx | constructor].
Qed.

Lemma oldestFirst_shift (l : list TrailPoint) :
  oldestFirst l -> oldestFirst (shift l).
Proof.
  unfold oldestFirst, shift.
  destruct 1; cbn; [constructor | assumption].
Qed.

Lemma step_trail_sorted
    (s : SimulationState) (p : SimulationParams) (dt : R) :
  oldestFirst (trail s) ->
  Forall (fun q => tp_time q <= time s + dt) (trail s) ->
  oldestFirst (trail (stepSimulation s p dt)).
Proof.
  intros Hsorted Hnew. rewrite step_trail_cases. cbv zeta.
  assert (Hpushed :
            oldestFirst (trail s ++ [sampleOf (stepSimulation s p dt)]))
    by (apply oldestFirst_snoc; assumption).
  destruct (Num.gtb _ _); [now apply oldestFirst_shift | exact Hpushed].
Qed.

(** Along a trajectory with [0 <= dt] no sample is newer than the state that
    carries it, and the samples are in the order of their times. *)
Lemma trajectory_trail_sorted (p : SimulationParams) (dt : R) (n : nat) :
  0 <= dt ->
  oldestFirst (trail (trajectory p dt n))
  /\ Forall (fun q => tp_time q <= time (trajectory p dt n))
            (trail (trajectory p dt n)).
Proof.
  intros Hdt. induction n as [| n [IHs IHt]]; cbn [trajectory].
  - split; constructor.
  - assert (Hnew : Forall (fun q => tp_time q <= time (trajectory p dt n) + dt)
                          (trail (trajectory p dt n))).
    { eapply Forall_impl; [| exact IHt]. cbn beta. intros q Hq. lra. }
    split; [now apply step_trail_sorted |].
    rewrite step_trail_cases, step_time. cbv zeta.
    assert (Hall : Forall (fun q => tp_time q <= time (trajectory p dt n) + dt)
                          (trail (trajectory p dt n)
                           ++ [sampleOf (stepSimulation (trajectory p dt n)
                                                        p dt)])).
    { apply Forall_app. split; [exact Hnew |].
      constructor; [| constructor].
      cbn [sampleOf tp_time]. rewrite step_time. lra. }
    destruct (Num.gtb _ _); [| exact Hall].
    unfold shift. destruct Hall; cbn; [constructor | assumption].
Qed.

(** C8. A step pushes the sample [{altitude', velocity', mach, t + dt}] at
    the end of the trail and then drops the first entry if the length
    exceeds the capacity ([maxTrailPoints], 500 by default).  So a trail
    within the capacity stays within it, the entries that remain keep their
    order with the new one last, and along a trajectory with [0 <= dt] the
    trail is in the order of its sample times. *)
Theorem trail_bounded_fifo :
  forall (s : SimulationState) (p : SimulationParams) (dt : R),
    let s' := stepSimulation s p dt in
    let capacity := orElse (maxTrailPoints p) 500 in
    let sample :=
      {| tp_altitude := altitude s'; tp_velocity := velocity s';
         tp_mach := mach s'; tp_time := time s + dt |} in
    trail s' =
      (if Num.gtb (INR (List.length (trail s ++ [sample]))) capacity
       then tl (trail s ++ [sample])
       else trail s ++ [sample])
    /\ (INR (List.length (trail s)) <= capacity ->
        INR (List.length (trail s')) <= capacity)
    /\ (oldestFirst (trail s) ->
        Forall (fun q => tp_time q <= time s + dt) (trail s) ->
        oldestFirst (trail s'))
    /\ (forall n : nat,
          0 <= dt -> oldestFirst (trail (trajectory p dt n))).
Proof.
  intros s p dt s' capacity sample. subst s' capacity sample.
  split; [reflexivity |].
  split; [apply step_trail_length |].
  split; [apply step_trail_sorted |].
  intros n Hdt. now apply trajectory_trail_sorted.
Qed.

Lemma initial_mass (p : SimulationParams) :
  mass (createSimulationState p) = wetMass p.
Proof. cbn. unfold wetMass. ring. Qed.

Section MassSchedule.

Variables (p : SimulationParams) (dt : R).

Hypothesis dt_pos : 0 < dt.
Hypothesis dt_fine : dt < Motors.burnTime (motor p).
Hypothesis dt_lands : dt < burnoutTime p.

Lemma initial_waiting : waiting p dt (createSimulationState p).
Proof.
  repeat split.
  - apply initial_mass.
  - cbn [createSimulationState initialState time]. lra.
Qed.

Lemma burn_positive : 0 < Motors.burnTime (motor p).
Proof. lra. Qed.

Lemma step_from_waiting (s : SimulationState) :
  waiting p dt s ->
  stepped p dt (stepSimulation s p dt)
  /\ (0 <= Motors.propellantMass (motor p) ->
      mass (stepSimulation s p dt) <= mass s).
Proof.
  intros (Hph & Hm & Ht). pose proof burn_positive as Hb.
  unfold stepped, waiting, burning, burnt.
  rewrite step_phase, step_mass, step_time, Hph, Hm.
  unfold inBurnAt, burnoutTime, motorStart in *.
  destruct (Rlt_dec (time s + dt) (orElse (motorStartTime p) 0))
    as [Hearly | Hlate].
  - decide_cmp. cbn [andb phase_eqb]. split; [| lra].
    left. repeat split; lra.
  - decide_cmp. cbn [andb]. unfold burningMass, motorStart.
    set (frac := (time s + dt - orElse (motorStartTime p) 0)
                 / Motors.burnTime (motor p)).
    assert (Hfrac : 0 <= frac).
    { unfold frac, Rdiv. apply Rmult_le_pos; [lra |].
      apply Rlt_le, Rinv_0_lt_compat, Hb. }
    split.
    + right. left. repeat split; try lra; unfold wetMass; ring.
    + intros Hprop. unfold wetMass. nra.
Qed.

Lemma step_from_burning (s : SimulationState) :
  burning p s ->
  stepped p dt (stepSimulation s p dt)
  /\ (0 <= Motors.propellantMass (motor p) ->
      mass (stepSimulation s p dt) <= mass s).
Proof.
  intros (Hph & Ht & Hm). pose proof burn_positive as Hb.
  unfold stepped, waiting, burning, burnt.
  rewrite step_phase, step_mass, step_time, Hph, Hm.
  unfold inBurnAt, burnoutTime, burningMass, motorStart in *.
  set (start := orElse (motorStartTime p) 0) in *.
  set (burn := Motors.burnTime (motor p)) in *.
  set (prop := Motors.propellantMass (motor p)).
  assert (Hinv : 0 < / burn) by now apply Rinv_0_lt_compat.
  destruct (Rlt_dec (time s + dt) (start + burn)) as [Hin | Hout].
  - decide_cmp. cbn [andb]. split.
    + right. left. repeat split; try lra; unfold Rdiv; ring.
    + intros Hprop.
      assert ((time s - start) / burn <= (time s + dt - start) / burn)
        by (unfold Rdiv; apply Rmult_le_compat_r; lra).
      nra.
  - decide_cmp. cbn [andb phase_eqb]. split.
    + right. right.
      destruct (Num.ltb (velocity s) 0);
        repeat split; try discriminate; lra.
    + intros Hprop.
      assert ((time s - start) / burn <= 1).
      { unfold Rdiv. replace 1 with (burn * / burn) by (field; lra).
        apply Rmult_le_compat_r; lra. }
      nra.
Qed.

Lemma step_from_burnt (s : SimulationState) :
  burnt p s ->
  stepped p dt (stepSimulation s p dt)
  /\ (0 <= Motors.propellantMass (motor p) ->
      mass (stepSimulation s p dt) <= mass s).
Proof.
  intros (Hpre & Hburn & Ht & Hm). pose proof burn_positive as Hb.
  unfold stepped, waiting, burning, burnt.
  rewrite step_phase, step_mass, step_time.
  unfold inBurnAt, burnoutTime, motorStart in *.
  decide_cmp. cbn [andb].
  assert (Hnb : phase_eqb (phase s) Burn = false)
    by (destruct (phase s); try reflexivity; contradiction).
  rewrite Hnb. split; [| lra].
  right. right.
  destruct (phase s); try contradiction;
    destruct (Num.ltb (velocity s) 0);
    repeat split; try discriminate; lra.
Qed.

Lemma trajectory_stepped (n : nat) :
  stepped p dt (trajectory p dt (S n))
  /\ (0 <= Motors.propellantMass (motor p) ->
      mass (trajectory p dt (S n)) <= mass (trajectory p dt n)).
Proof.
  induction n as [| n [[[Hw _] | [Hb | Hd]] _]]; cbn [trajectory].
  - apply step_from_waiting, initial_waiting.
  - now apply step_from_waiting.
  - now apply step_from_burning.
  - now apply step_from_burnt.
Qed.

Lemma stepped_on_schedule (s : SimulationState) :
  stepped p dt s -> mass_on_schedule p s.
Proof.
  pose proof burn_positive as Hb.
  unfold stepped, waiting, burning, burnt, mass_on_schedule, burnoutTime.
  intros [[(_ & Hm & _) Ht] | [(_ & Ht & Hm) | (_ & _ & Ht & Hm)]];
    repeat split; intros; try lra; assumption.
Qed.

End MassSchedule.

(** The catalog: every motor burns for at least half a second and carries
    propellant. *)
Lemma catalog_motor (i : string) (m : Motors.MotorSpec) :
  Motors.getMotor i = Some m ->
  0.5 <= Motors.burnTime m /\ 0 <= Motors.propellantMass m.
Proof.
  unfold Motors.getMotor. intros Hfind.
  apply find_some in Hfind as [Hin _].
  cbn [In Motors.MOTORS] in Hin.
  repeat (destruct Hin as [<- | Hin]; [cbn; lra |]).
  contradiction.
Qed.

(** The runs of the request handler, at [dt = 1/60] on a catalog motor
    ignited at [0], meet the conditions of the schedule. *)
Lemma handler_run_on_schedule
    (d : Rocket.RocketDesign) (p : SimulationParams) (n : nat) :
  DesignToSim.getSimParams d = Some p ->
  mass_on_schedule p (trajectory p Routes.dt (S n))
  /\ mass (trajectory p Routes.dt (S n)) <= mass (trajectory p Routes.dt n).
Proof.
  unfold DesignToSim.getSimParams.
  destruct (Motors.getMotor (Rocket.motorId d)) as [m |] eqn:Hm;
    [| discriminate].
  intros [= <-].
  destruct (catalog_motor _ _ Hm) as [Hburn Hprop].
  match goal with
  | |- mass_on_schedule ?q _ /\ _ => set (p := q)
  end.
  assert (H1 : 0 < Routes.dt) by (unfold Routes.dt; lra).
  assert (H2 : Routes.dt < Motors.burnTime (motor p))
    by (unfold Routes.dt; cbn; lra).
  assert (H3 : Routes.dt < burnoutTime p)
    by (unfold Routes.dt, burnoutTime, motorStart; cbn; lra).
  destruct (trajectory_stepped p Routes.dt H1 H2 H3 n) as [Hstep Hmono].
  split.
  - now apply stepped_on_schedule with (dt := Routes.dt).
  - apply Hmono. exact Hprop.
Qed.

(** C4, amended. Take a timestep [0 < dt] smaller than the burn time and
    than the burnout time, so that a step lands inside the burn window.
    Then every state that [stepSimulation] produces along the trajectory
    from the initial state has, at its own time [t], the mass
    [dryMass + motorDryMass + propellantMass * (1 - elapsedBurnFraction)]
    while [t] is in the burn window, [dryMass + motorDryMass] from burnout
    on, and the full wet mass before ignition; and with a non-negative
    propellant mass no step increases the mass. *)
Theorem mass_schedule :
  forall (p : SimulationParams) (dt : R),
    0 < dt ->
    dt < Motors.burnTime (motor p) ->
    dt < burnoutTime p ->
    (forall n : nat, mass_on_schedule p (trajectory p dt (S n)))
    /\ (0 <= Motors.propellantMass (motor p) ->
        forall n : nat,
          mass (trajectory p dt (S n)) <= mass (trajectory p dt n)).
Proof.
  intros p dt Hpos Hfine Hlands. split.
  - intros n. apply stepped_on_schedule with (dt := dt); try assumption.
    now apply trajectory_stepped.
  - intros Hprop n. now apply trajectory_stepped.
Qed.

(** *** The sample rocket on the pad *)

Lemma getSimParams_sampleDesign :
  DesignToSim.getSimParams sampleDesign = Some sampleParams.
Proof. reflexivity. Qed.

Lemma phase_never_regresses_witness :
  phase_le (phase (trajectory sampleParams DT 0))
           (phase (trajectory sampleParams DT 1))
  /\ phase (stepSimulation apogeeState sampleParams DT) = Recovery.
Proof.
  destruct (phase_never_regresses sampleParams DT)
    as (Hstep & Hmono & _ & _).
  split.
  - apply (Hmono 0%nat 1%nat). lia.
  - apply (proj1 (proj2 (Hstep apogeeState))). reflexivity.
Defined.

Lemma trail_bounded_fifo_witness :
  INR (List.length
         (trail (stepSimulation (createSimulationState sampleParams)
                                sampleParams DT)))
  <= 500.
Proof.
  apply (proj1 (proj2 (trail_bounded_fifo
                         (createSimulationState sampleParams)
                         sampleParams DT))).
  cbn. lra.
Defined.

(** C4, refuted as stated: with a timestep of two seconds the first step
    of the sample rocket lands after the burnout of its Estes C6 (1.6 s)
    while the state is still in [pre], so the propellant is never taken
    off: the mass stays the wet mass, not [dryMass + motorDryMass]. *)
Lemma coarse_step_keeps_wet_mass :
  burnoutTime sampleParams <= time (trajectory sampleParams 2 1)
  /\ mass (trajectory sampleParams 2 1) = wetMass sampleParams
  /\ ~ mass_on_schedule sampleParams (trajectory sampleParams 2 1).
Proof.
  assert (Hout : burnoutTime sampleParams
                 <= time (trajectory sampleParams 2 1)).
  { cbn [trajectory]. rewrite step_time.
    unfold burnoutTime, motorStart. cbn. lra. }
  assert (Hmass : mass (trajectory sampleParams 2 1) = wetMass sampleParams).
  { cbn [trajectory]. rewrite step_mass, initial_mass.
    unfold inBurnAt, burnoutTime, motorStart.
    cbn [createSimulationState initialState time phase sampleParams
         motorStartTime orElse motor estesC6 Motors.burnTime
         phase_eqb].
    rewrite (NumFacts.ltb_false (0 + 2) (0 + 1.6)) by lra.
    rewrite !andb_false_r. reflexivity. }
  repeat split; try assumption.
  intros (_ & Hburnt & _). specialize (Hburnt Hout).
  rewrite Hmass in Hburnt. unfold wetMass, burnoutMass in Hburnt.
  cbn in Hburnt. lra.
Qed.

Lemma mass_schedule_witness :
  mass_on_schedule sampleParams (trajectory sampleParams DT 1)
  /\ mass (trajectory sampleParams DT 1) <= mass (trajectory sampleParams DT 0).
Proof.
  assert (H1 : 0 < DT) by (unfold DT; lra).
  assert (H2 : DT < Motors.burnTime (motor sampleParams))
    by (unfold DT; cbn; lra).
  assert (H3 : DT < burnoutTime sampleParams)
    by (unfold DT, burnoutTime, motorStart; cbn; lra).
  destruct (mass_schedule sampleParams DT H1 H2 H3) as [Hsched Hmono].
  split.
  - apply (Hsched 0%nat).
  - apply (Hmono ltac:(cbn; lra) 0%nat).
Defined.

Lemma kinematic_update_witness :
  0 <= altitude (stepSimulation apogeeState sampleParams DT).
Proof.
  apply (proj1 (proj2 (proj2 (proj2
           (kinematic_update apogeeState sampleParams DT))))).
Defined.

End SimulationFacts.

(** * Further properties of the code *)

(** ** The atmosphere, continued *)

Module AtmosphereMore.

Import Atmosphere.

Lemma temperature_band (h : R) : 216.65 <= temperature h <= 288.15.
Proof.
  unfold temperature, T0, LAPSE, TROPOPAUSE_ALT, T_TROP.
  destruct (NumFacts.leb_spec h 0), (NumFacts.leb_spec h 11000); lra.
Qed.

Lemma density_le_ground (h : R) : density h <= RHO0.
Proof.
  unfold density.
  destruct (NumFacts.leb_spec h 0) as [Hlow | Hhigh]; [lra |].
  assert (exp (- h / 7400) < 1)
    by (rewrite <- exp_0; apply exp_increasing; lra).
  unfold RHO0. lra.
Qed.

Lemma density_nonincreasing (h1 h2 : R) :
  h1 <= h2 -> density h2 <= density h1.
Proof.
  intros H12.
  destruct (Rle_dec h2 0) as [Hlow | Hhigh].
  - rewrite !AtmosphereFacts.density_at_ground by lra. lra.
  - destruct (Rle_dec h1 0) as [Hlow1 | Hhigh1].
    + rewrite (AtmosphereFacts.density_at_ground h1) by lra.
      apply density_le_ground.
    + destruct (Req_dec h1 h2) as [-> | Hne]; [lra |].
      apply Rlt_le, AtmosphereFacts.density_decreasing; lra.
Qed.

Lemma speedOfSound_band (h : R) : 295 < speedOfSound h < 341.
Proof.
  unfold speedOfSound, R_AIR. cbv zeta.
  pose proof (temperature_band h) as [Hlo Hhi].
  split.
  - rewrite <- (sqrt_square 295) by lra.
    apply sqrt_lt_1_alt. lra.
  - rewrite <- (sqrt_square 341) by lra.
    apply sqrt_lt_1_alt. lra.
Qed.

Lemma machNumber_quotient (v h : R) : machNumber v h = v / speedOfSound h.
Proof.
  unfold machNumber. cbv zeta.
  pose proof (speedOfSound_band h).
  now rewrite NumFacts.gtb_true by lra.
Qed.

Lemma machNumber_nonneg (v h : R) : 0 <= machNumber (Rabs v) h.
Proof.
  rewrite machNumber_quotient.
  pose proof (speedOfSound_band h). pose proof (Rabs_pos v).
  apply Rmult_le_pos; [assumption |].
  apply Rlt_le, Rinv_0_lt_compat. lra.
Qed.

(** X1. At every altitude the temperature lies between 216.65 K and
    288.15 K and the speed of sound between 295 and 341 m/s; so the guard
    [a > 0] of [machNumber] always holds, the Mach number is the quotient
    [velocity / speedOfSound], and that of a speed is never negative. *)
Theorem speed_of_sound_never_vanishes :
  forall h v : R,
    216.65 <= temperature h <= 288.15
    /\ 295 < speedOfSound h < 341
    /\ machNumber v h = v / speedOfSound h
    /\ 0 <= machNumber (Rabs v) h.
Proof.
  intros h v.
  split; [apply temperature_band |].
  split; [apply speedOfSound_band |].
  split; [apply machNumber_quotient | apply machNumber_nonneg].
Qed.

Lemma pressure_band (h : R) : 0 < pressure h < P0.
Proof.
  unfold pressure, R_AIR, P0. cbv zeta.
  pose proof (temperature_band h) as [Tlo Thi].
  pose proof (AtmosphereFacts.density_pos h) as Hpos.
  pose proof (density_le_ground h) as Hle. unfold RHO0 in Hle.
  split; [nra |].
  assert (density h * 287.05 * temperature h <= 1.225 * 287.05 * 288.15)
    by nra.
  lra.
Qed.

Lemma pressure_nonincreasing (h1 h2 : R) :
  h1 <= h2 -> pressure h2 <= pressure h1.
Proof.
  intros H12. unfold pressure, R_AIR. cbv zeta.
  pose proof (density_nonincreasing h1 h2 H12).
  pose proof (AtmosphereFacts.temperature_nonincreasing h1 h2 H12).
  pose proof (AtmosphereFacts.density_pos h2).
  pose proof (temperature_band h2). pose proof (temperature_band h1).
  nra.
Qed.

Lemma thrustAltitudeFactor_eq (h : R) :
  Simulation.thrustAltitudeFactor h = 1 + 0.12 * (1 - pressure h / P0).
Proof.
  unfold Simulation.thrustAltitudeFactor. cbv zeta.
  pose proof (pressure_band h) as [Hpos _].
  rewrite Rmax_right; [reflexivity |].
  unfold P0, Rdiv. apply Rmult_le_pos; [lra |].
  apply Rlt_le, Rinv_0_lt_compat. lra.
Qed.

Lemma thrustAltitudeFactor_band (h : R) :
  1 < Simulation.thrustAltitudeFactor h < 1.12.
Proof.
  pose proof (pressure_band h) as Hp.
  rewrite thrustAltitudeFactor_eq. unfold P0 in *.
  assert (0 < pressure h / 101325 < 1).
  { split.
    - apply Rdiv_lt_0_compat; lra.
    - apply Rmult_lt_reg_r with 101325; [lra |].
      unfold Rdiv. rewrite Rmult_assoc, Rinv_l by lra. lra. }
  lra.
Qed.

(** X2. At every altitude the pressure is positive and below the sea-level
    constant [P0], so the thrust altitude factor is strictly between 1 and
    1.12: thrust is never scaled down, not even on the ground.  Going up,
    the pressure never rises and the factor never falls. *)
Theorem thrust_factor_band :
  (forall h : R,
      0 < pressure h < P0 /\ 1 < Simulation.thrustAltitudeFactor h < 1.12)
  /\ (forall h1 h2 : R,
        h1 <= h2 ->
        pressure h2 <= pressure h1
        /\ Simulation.thrustAltitudeFactor h1
           <= Simulation.thrustAltitudeFactor h2).
Proof.
  split.
  - intros h. split; [apply pressure_band | apply thrustAltitudeFactor_band].
  - intros h1 h2 H12.
    pose proof (pressure_nonincreasing h1 h2 H12) as Hp.
    split; [exact Hp |].
    rewrite !thrustAltitudeFactor_eq. unfold P0.
    assert (pressure h2 / 101325 <= pressure h1 / 101325)
      by (unfold Rdiv; apply Rmult_le_compat_r; lra).
    lra.
Qed.

Lemma thrust_factor_band_witness :
  pressure 3000 <= pressure 0
  /\ Simulation.thrustAltitudeFactor 0 <= Simulation.thrustAltitudeFactor 3000.
Proof.
  apply (proj2 thrust_factor_band 0 3000). lra.
Defined.

End AtmosphereMore.

(** ** The drag curve, continued *)

Module DragMore.

Import Drag.

Lemma supersonicCd_floor (m : R) : 3.2 <= m -> supersonicCd m = 0.56.
Proof.
  intros Hm. unfold supersonicCd. rewrite Rmin_right by lra. lra.
Qed.

Lemma supersonicCd_nonincreasing (m1 m2 : R) :
  m1 <= m2 -> supersonicCd m2 <= supersonicCd m1.
Proof.
  intros H12. unfold supersonicCd.
  assert (Rmin (m1 - 1.2) 2 <= Rmin (m2 - 1.2) 2).
  { apply Rmin_glb.
    - pose proof (Rmin_l (m1 - 1.2) 2). lra.
    - apply Rmin_r. }
  lra.
Qed.

(** X3. Above Mach 1.2 the drag coefficient never rises with the Mach
    number, and from Mach 3.2 on it stays at its floor 0.56. *)
Theorem supersonic_drag_floor :
  (forall m : R, 3.2 <= m -> dragCoefficient m = 0.56)
  /\ (forall m1 m2 : R,
        1.2 < m1 -> m1 <= m2 -> dragCoefficient m2 <= dragCoefficient m1).
Proof.
  split.
  - intros m Hm. rewrite DragFacts.dragCoefficient_supersonic by lra.
    now apply supersonicCd_floor.
  - intros m1 m2 H1 H12.
    rewrite !DragFacts.dragCoefficient_supersonic by lra.
    now apply supersonicCd_nonincreasing.
Qed.

Lemma supersonic_drag_floor_witness :
  dragCoefficient 5 = 0.56 /\ dragCoefficient 3 <= dragCoefficient 2.
Proof.
  split.
  - apply (proj1 supersonic_drag_floor 5). lra.
  - apply (proj2 supersonic_drag_floor 2 3); lra.
Defined.

Lemma dragForceMagnitude_nonneg (rho v cd area : R) :
  0 <= rho -> 0 <= cd -> 0 <= area ->
  0 <= dragForceMagnitude rho v cd area.
Proof.
  intros Hrho Hcd Harea. unfold dragForceMagnitude.
  assert (0 <= v * v) by nra.
  assert (0 <= 0.5 * rho * v * v)
    by (replace (0.5 * rho * v * v) with (0.5 * rho * (v * v)) by ring; nra).
  apply Rmult_le_pos; [apply Rmult_le_pos |]; assumption.
Qed.

End DragMore.

(** ** Motors *)

Module MotorsMore.

Import Motors.

Section Trapezoid.

Variables peak burn : R.
Hypothesis peak_nonneg : 0 <= peak.
Hypothesis burn_pos : 0 < burn.

Lemma trapezoid_outside (t : R) :
  t <= 0 \/ burn <= t -> trapezoidalThrust peak burn t = 0.
Proof.
  intros Hout. unfold trapezoidalThrust, trapezoidalThrustWith. cbv zeta.
  destruct Hout.
  - now rewrite NumFacts.leb_true by assumption.
  - rewrite (NumFacts.geb_true t burn) by assumption.
    now rewrite orb_true_r.
Qed.

Lemma trapezoid_plateau (t : R) :
  0.1 * burn <= t <= 0.8 * burn -> trapezoidalThrust peak burn t = peak.
Proof.
  intros Ht. unfold trapezoidalThrust, trapezoidalThrustWith. cbv zeta.
  now decide_cmp.
Qed.

Lemma trapezoid_band (t : R) : 0 <= trapezoidalThrust peak burn t <= peak.
Proof.
  unfold trapezoidalThrust, trapezoidalThrustWith. cbv zeta.
  destruct (NumFacts.leb_spec t 0) as [H0 | H0]; cbn [orb]; [lra |].
  destruct (NumFacts.geb_spec t burn) as [Hb | Hb]; [lra |].
  destruct (NumFacts.ltb_spec t (burn * 0.1)) as [Hup | Hup].
  - assert (Hinv : 0 < / (burn * 0.1))
      by (apply Rinv_0_lt_compat; lra).
    unfold Rdiv. split.
    + apply Rmult_le_pos; [nra | lra].
    + apply Rmult_le_reg_r with (burn * 0.1); [lra |].
      rewrite Rmult_assoc, Rinv_l by lra. nra.
  - destruct (NumFacts.leb_spec t (burn * (1 - 0.2))) as [Hflat | Hdown];
      [lra |].
    assert (Hden : 0 < burn - burn * (1 - 0.2)) by lra.
    assert (Hinv : 0 < / (burn - burn * (1 - 0.2)))
      by (apply Rinv_0_lt_compat; exact Hden).
    unfold Rdiv. split.
    + apply Rmult_le_pos; [nra | lra].
    + apply Rmult_le_reg_r with (burn - burn * (1 - 0.2)); [lra |].
      rewrite Rmult_assoc, Rinv_l by lra. nra.
Qed.

End Trapezoid.

(** X4. A trapezoidal thrust curve with a non-negative peak and a positive
    burn time stays between 0 and the peak, is exactly 0 at and before the
    start of the burn and from its end on, and holds the peak from the end
    of the ramp-up (10 % of the burn) to the start of the ramp-down
    (80 %), both ends included. *)
Theorem trapezoid_thrust_shape :
  forall peak burn t : R,
    0 <= peak -> 0 < burn ->
    0 <= trapezoidalThrust peak burn t <= peak
    /\ (t <= 0 \/ burn <= t -> trapezoidalThrust peak burn t = 0)
    /\ (0.1 * burn <= t <= 0.8 * burn -> trapezoidalThrust peak burn t = peak).
Proof.
  intros peak burn t Hpeak Hburn.
  split; [now apply trapezoid_band |].
  split; [apply trapezoid_outside | now apply trapezoid_plateau].
Qed.

Lemma trapezoid_thrust_shape_witness :
  0 <= trapezoidalThrust 9 1.6 0.1 <= 9
  /\ trapezoidalThrust 9 1.6 1.6 = 0
  /\ trapezoidalThrust 9 1.6 0.16 = 9.
Proof.
  destruct (trapezoid_thrust_shape 9 1.6 0.1 ltac:(lra) ltac:(lra))
    as (Hband & _ & _).
  destruct (trapezoid_thrust_shape 9 1.6 1.6 ltac:(lra) ltac:(lra))
    as (_ & Hout & _).
  destruct (trapezoid_thrust_shape 9 1.6 0.16 ltac:(lra) ltac:(lra))
    as (_ & _ & Hflat).
  split; [exact Hband |].
  split; [apply Hout; lra | apply Hflat; lra].
Defined.

Lemma getMotor_sound (i : string) (m : MotorSpec) :
  getMotor i = Some m -> In m MOTORS /\ id m = i.
Proof.
  unfold getMotor. intros Hfind.
  apply find_some in Hfind as [Hin Heq].
  split; [exact Hin | now apply String.eqb_eq].
Qed.

Lemma getMotor_complete (m : MotorSpec) :
  In m MOTORS -> getMotor (id m) = Some m.
Proof.
  cbn [In MOTORS]. intros Hin.
  repeat (destruct Hin as [<- | Hin]; [reflexivity |]).
  contradiction.
Qed.

(** X5. The catalog lookup answers with a catalog entry that carries the
    identifier asked for, finds every entry under its own identifier (no
    identifier is listed twice), and fails exactly on the identifiers the
    catalog does not list. *)
Theorem catalog_lookup :
  (forall (i : string) (m : MotorSpec),
      getMotor i = Some m -> In m MOTORS /\ id m = i)
  /\ (forall m : MotorSpec, In m MOTORS -> getMotor (id m) = Some m)
  /\ NoDup (map id MOTORS)
  /\ (forall i : string, getMotor i = None <-> ~ In i (map id MOTORS)).
Proof.
  split; [apply getMotor_sound |].
  split; [apply getMotor_complete |].
  split.
  - cbn [map MOTORS id].
    repeat (constructor;
            [cbn [In]; intros Hin;
             repeat (destruct Hin as [Hin | Hin]; [discriminate |]);
             exact Hin |]).
    constructor.
  - intros i. split.
    + intros Hnone Hin. apply in_map_iff in Hin as (m & Hid & Hin).
      pose proof (getMotor_complete m Hin) as Hsome.
      rewrite Hid, Hnone in Hsome. discriminate.
    + intros Hnot. destruct (getMotor i) as [m |] eqn:Hget; [| reflexivity].
      apply getMotor_sound in Hget as [Hin Hid].
      exfalso. apply Hnot. rewrite <- Hid. now apply in_map.
Qed.

Lemma catalog_lookup_witness :
  getMotor "estes-c6" = Some Samples.estesC6
  /\ getMotor "estes-z9" = None.
Proof.
  destruct catalog_lookup as (_ & Hfound & _ & Hnone).
  split.
  - apply (Hfound Samples.estesC6). cbn. tauto.
  - apply (proj2 (Hnone "estes-z9"%string)). cbn [map MOTORS id In].
    intros Hin.
    repeat (destruct Hin as [Hin | Hin]; [discriminate |]).
    exact Hin.
Defined.

(** X6. Every motor the catalog can answer with has a positive burn time,
    propellant mass and casing mass, and a thrust that is never negative
    and is 0 at and before the start of the burn and from its end on. *)
Theorem catalog_motors_well_formed :
  forall (i : string) (m : MotorSpec),
    getMotor i = Some m ->
    0 < burnTime m /\ 0 < propellantMass m /\ 0 < dryMass m
    /\ (forall t : R,
          0 <= thrustAt m t
          /\ (t <= 0 \/ burnTime m <= t -> thrustAt m t = 0)).
Proof.
  intros i m Hget. apply getMotor_sound in Hget as [Hin _].
  cbn [In MOTORS] in Hin.
  repeat (destruct Hin as [<- | Hin];
          [cbn [burnTime propellantMass dryMass thrustAt];
           repeat split; try lra;
           [apply trapezoid_band; lra | apply trapezoid_outside] |]).
  contradiction.
Qed.

Lemma catalog_motors_well_formed_witness :
  0 < burnTime Samples.estesC6
  /\ thrustAt Samples.estesC6 2 = 0.
Proof.
  destruct (catalog_motors_well_formed "estes-c6" Samples.estesC6 eq_refl)
    as (Hburn & _ & _ & Hthrust).
  split; [exact Hburn |].
  apply (proj2 (Hthrust 2)). right. cbn. lra.
Defined.

End MotorsMore.

(** ** Centre of pressure, continued *)

Module BarrowmanMore.

Import Rocket Barrowman Measures.

Section Physical.

Variable g : RocketGeometry.
Hypothesis diameter_pos : 0 < bodyDiameter g.
Hypothesis semispan_nonneg : 0 <= finSemispan g.
Hypothesis fins_nonneg : 0 <= numFins g.

Lemma finTerms_CN_nonneg : 0 <= CN (finTerms g).
Proof.
  unfold finTerms. cbn [CN].
  set (S := finSemispan g) in *. set (d := bodyDiameter g) in *.
  set (den := 1 + sqrt _).
  assert (Hden : 0 < den).
  { unfold den.
    match goal with
    | |- 0 < 1 + sqrt ?x => pose proof (sqrt_pos x)
    end.
    lra. }
  assert (HK : 0 <= 1 + d / 2 / (S + d / 2)).
  { assert (0 <= d / 2 / (S + d / 2)).
    { unfold Rdiv at 1. apply Rmult_le_pos; [lra |].
      apply Rlt_le, Rinv_0_lt_compat. lra. }
    lra. }
  assert (Hsq : 0 <= (S / d) ^ 2) by (apply pow2_ge_0).
  unfold Rdiv at 1. apply Rmult_le_pos.
  - apply Rmult_le_pos; [exact HK |]. nra.
  - apply Rlt_le, Rinv_0_lt_compat, Hden.
Qed.

Lemma centerOfPressure_mean :
  centerOfPressure g
  = (2 * X (noseTerms (noseLength g) (noseShape g))
     + CN (finTerms g) * X (finTerms g))
    / (2 + CN (finTerms g)).
Proof.
  unfold centerOfPressure. cbv zeta. rewrite BarrowmanFacts.noseTerms_CN.
  pose proof finTerms_CN_nonneg.
  now rewrite NumFacts.leb_false by lra.
Qed.

Lemma cp_between_offsets :
  between (X (noseTerms (noseLength g) (noseShape g))) (X (finTerms g))
          (centerOfPressure g).
Proof.
  rewrite centerOfPressure_mean. unfold between.
  pose proof finTerms_CN_nonneg as Hc.
  set (c := CN (finTerms g)) in *.
  set (xn := X (noseTerms (noseLength g) (noseShape g))).
  set (xf := X (finTerms g)).
  assert (Hinv : 0 < / (2 + c)) by (apply Rinv_0_lt_compat; lra).
  assert (Hlo : forall lo, lo <= xn -> lo <= xf ->
                           lo <= (2 * xn + c * xf) / (2 + c)).
  { intros lo H1 H2. apply Rmult_le_reg_r with (2 + c); [lra |].
    unfold Rdiv. rewrite Rmult_assoc, Rinv_l by lra. nra. }
  assert (Hhi : forall hi, xn <= hi -> xf <= hi ->
                           (2 * xn + c * xf) / (2 + c) <= hi).
  { intros hi H1 H2. apply Rmult_le_reg_r with (2 + c); [lra |].
    unfold Rdiv. rewrite Rmult_assoc, Rinv_l by lra. nra. }
  split.
  - apply Hlo; [apply Rmin_l | apply Rmin_r].
  - apply Hhi; [apply Rmax_l | apply Rmax_r].
Qed.

End Physical.

(** X7. For a geometry with a positive body diameter, non-negative fin
    semispan and fin count, and chords whose sum is not 0 (the divisor of
    the fin terms), the fin normal-force coefficient is not negative, so
    the guard on a non-positive total coefficient is never taken and the
    centre of pressure is the weighted mean of the nose and fin offsets: it
    lies between the two. *)
Theorem centerOfPressure_between :
  forall g : RocketGeometry,
    0 < bodyDiameter g -> 0 <= finSemispan g -> 0 <= numFins g ->
    finRootChord g + finTipChord g <> 0 ->
    0 <= CN (finTerms g)
    /\ centerOfPressure g
       = (2 * X (noseTerms (noseLength g) (noseShape g))
          + CN (finTerms g) * X (finTerms g))
         / (2 + CN (finTerms g))
    /\ between (X (noseTerms (noseLength g) (noseShape g))) (X (finTerms g))
               (centerOfPressure g).
Proof.
  intros g Hd HS HN _.
  split; [now apply finTerms_CN_nonneg |].
  split; [now apply centerOfPressure_mean |].
  now apply cp_between_offsets.
Qed.

Lemma centerOfPressure_between_witness :
  0 <= CN (finTerms Samples.sampleGeometry)
  /\ between (X (noseTerms 0.12 ogive)) (X (finTerms Samples.sampleGeometry))
             (centerOfPressure Samples.sampleGeometry).
Proof.
  destruct (centerOfPressure_between Samples.sampleGeometry)
    as (Hc & _ & Hb); cbn; try lra.
  split; [exact Hc | exact Hb].
Defined.

End BarrowmanMore.

(** ** Centre of gravity *)

Module CGMore.

Import CG Measures.

Lemma sums_from (l : list MassComponent) (mx m : R) :
  fold_left
    (fun acc c => (fst acc + mass c * positionFromNose c, snd acc + mass c))
    l (mx, m)
  = (mx + totalMoment l, m + totalMass l).
Proof.
  revert mx m. induction l as [| c l IH]; intros mx m;
    unfold totalMoment, totalMass;
    cbn [fold_left fold_right fst snd].
  - f_equal; ring.
  - rewrite IH. unfold totalMoment, totalMass. f_equal; ring.
Qed.

Lemma sums_totals (l : list MassComponent) :
  sums l = (totalMoment l, totalMass l).
Proof. unfold sums. rewrite sums_from. f_equal; ring. Qed.

Lemma computeCG_totals (l : list MassComponent) :
  computeCG l
  = if Num.leb (totalMass l) 0 then 0 else totalMoment l / totalMass l.
Proof. unfold computeCG. now rewrite sums_totals. Qed.

Lemma totals_permutation (l l' : list MassComponent) :
  Permutation l l' ->
  totalMoment l = totalMoment l' /\ totalMass l = totalMass l'.
Proof.
  induction 1 as [| c l l' _ [IH1 IH2] | c c' l
                  | l l' l'' _ [IH1 IH2] _ [IH3 IH4]];
    unfold totalMoment, totalMass in *; cbn [fold_right].
  - split; reflexivity.
  - rewrite IH1, IH2. split; reflexivity.
  - split; ring.
  - split; congruence.
Qed.

(** X8. The centre of gravity does not depend on the order in which the
    components are listed. *)
Theorem computeCG_permutation :
  forall l l' : list MassComponent,
    Permutation l l' -> computeCG l = computeCG l'.
Proof.
  intros l l' Hperm. rewrite !computeCG_totals.
  destruct (totals_permutation l l' Hperm) as [-> ->]. reflexivity.
Qed.

Lemma computeCG_permutation_witness :
  computeCG [ {| positionFromNose := 0.1; mass := 0.02 |};
              {| positionFromNose := 0.4; mass := 0.05 |} ]
  = computeCG [ {| positionFromNose := 0.4; mass := 0.05 |};
                {| positionFromNose := 0.1; mass := 0.02 |} ].
Proof.
  apply computeCG_permutation. apply perm_swap.
Defined.

Lemma totalMoment_bounds (l : list MassComponent) (lo hi : R) :
  Forall (fun c => 0 <= mass c /\ lo <= positionFromNose c <= hi) l ->
  0 <= totalMass l
  /\ lo * totalMass l <= totalMoment l <= hi * totalMass l.
Proof.
  induction 1 as [| c l [Hm Hpos] _ (IHm & IHlo & IHhi)];
    unfold totalMoment, totalMass in *; cbn [fold_right].
  - lra.
  - split; [lra |]. split; nra.
Qed.

(** X9. The centre of gravity of no components is 0, and so is that of
    components without total mass; a single component of positive mass has
    its centre of gravity at its own position; and when no mass is negative
    and there is some mass, the centre of gravity lies within the range of
    the component positions. *)
Theorem computeCG_weighted_mean :
  computeCG [] = 0
  /\ (forall l : list MassComponent, totalMass l <= 0 -> computeCG l = 0)
  /\ (forall c : MassComponent,
        0 < mass c -> computeCG [c] = positionFromNose c)
  /\ (forall (l : list MassComponent) (lo hi : R),
        Forall (fun c => 0 <= mass c /\ lo <= positionFromNose c <= hi) l ->
        0 < totalMass l ->
        lo <= computeCG l <= hi).
Proof.
  split; [| split; [| split]].
  - rewrite computeCG_totals. cbn. now rewrite NumFacts.leb_true by lra.
  - intros l Hzero. rewrite computeCG_totals.
    now rewrite NumFacts.leb_true by assumption.
  - intros c Hm. rewrite computeCG_totals. cbn.
    rewrite NumFacts.leb_false by lra. field. lra.
  - intros l lo hi Hall Hpos. rewrite computeCG_totals.
    rewrite NumFacts.leb_false by assumption.
    destruct (totalMoment_bounds l lo hi Hall) as (_ & Hlo & Hhi).
    assert (Hinv : 0 < / totalMass l) by now apply Rinv_0_lt_compat.
    split.
    + apply Rmult_le_reg_r with (totalMass l); [assumption |].
      unfold Rdiv. rewrite Rmult_assoc, Rinv_l by lra. lra.
    + apply Rmult_le_reg_r with (totalMass l); [assumption |].
      unfold Rdiv. rewrite Rmult_assoc, Rinv_l by lra. lra.
Qed.

Lemma computeCG_weighted_mean_witness :
  computeCG [ {| positionFromNose := 0.3; mass := 0.05 |} ] = 0.3
  /\ computeCG [ {| positionFromNose := 0.3; mass := 0 |} ] = 0.
Proof.
  destruct computeCG_weighted_mean as (_ & Hzero & Hone & _).
  split.
  - apply (Hone {| positionFromNose := 0.3; mass := 0.05 |}). cbn. lra.
  - apply Hzero. cbn. lra.
Defined.

(** The five masses and positions of [buildCGComponents], the payload with
    the mass it is counted with. *)
Lemma buildCGComponents_totals (p : CGParams) :
  totalMass (buildCGComponents p)
  = cgNoseMass p + bodyMass p + finMass p + Rmax 0 (payloadMass p)
    + motorMass p
  /\ totalMoment (buildCGComponents p)
     = cgNoseMass p * ((3 / 4) * noseLength p)
       + bodyMass p * (noseLength p + bodyLength p / 2)
       + finMass p
         * (finRootLeadingEdge p + (finRootChord p + finTipChord p) / 4)
       + Rmax 0 (payloadMass p) * payloadPosition p
       + motorMass p * motorPosition p.
Proof.
  unfold buildCGComponents, cgNoseMass, NOSE_DENSITY. cbv zeta.
  destruct (NumFacts.gtb_spec (payloadMass p) 0) as [Hpay | Hpay]; cbn.
  - rewrite Rmax_right by lra. split; ring.
  - rewrite Rmax_left by lra. split; ring.
Qed.

(** X10. [centerOfGravity] is the mass-weighted mean of the five component
    positions (nose at 3/4 of its length, body at its middle, fins a
    quarter of the mean chord behind their leading edge, payload and motor
    where the design puts them), with the payload counted with the mass
    [max 0 payloadMass]: a payload without mass changes nothing and a
    negative payload mass is ignored, not subtracted.  Without total mass
    the answer is 0. *)
Theorem centerOfGravity_formula :
  forall p : CGParams,
    let payload := Rmax 0 (payloadMass p) in
    let total :=
      cgNoseMass p + bodyMass p + finMass p + payload + motorMass p in
    centerOfGravity p
    = if Num.leb total 0 then 0
      else (cgNoseMass p * ((3 / 4) * noseLength p)
            + bodyMass p * (noseLength p + bodyLength p / 2)
            + finMass p
              * (finRootLeadingEdge p + (finRootChord p + finTipChord p) / 4)
            + payload * payloadPosition p
            + motorMass p * motorPosition p)
           / total.
Proof.
  intros p payload total. subst payload total.
  unfold centerOfGravity. rewrite computeCG_totals.
  destruct (buildCGComponents_totals p) as [-> ->]. reflexivity.
Qed.

End CGMore.

(** ** From a design to a run, continued *)

Module DesignMore.

Import Rocket DesignToSim Measures.

(** X11. The analysis of a design answers with the margin and the verdict
    of the library functions [stabilityMarginCalibers] and [isStable]; for
    a positive body diameter the design is reported stable exactly when the
    centre of pressure lies at least one body diameter behind the centre of
    gravity. *)
Theorem stable_iff_one_caliber :
  forall d : RocketDesign,
    let r := getPreLaunchResults d in
    stabilityCalibers r
    = Barrowman.stabilityMarginCalibers (cp r) (cg r)
                                        (bodyDiameter (geometry d))
    /\ isStable r = Barrowman.isStable (stabilityCalibers r)
    /\ (0 < bodyDiameter (geometry d) ->
        (isStable r = true <-> cg r + bodyDiameter (geometry d) <= cp r)).
Proof.
  intros d r. subst r.
  split; [reflexivity |]. split; [reflexivity |].
  intros Hd. cbn [getPreLaunchResults isStable cp cg].
  set (c := Barrowman.centerOfPressure (geometry d)).
  set (w := CG.centerOfGravity (cgParams d)).
  set (D := bodyDiameter (geometry d)) in *.
  assert (Hinv : 0 < / D) by now apply Rinv_0_lt_compat.
  assert (Hmargin : (c - w) / D * D = c - w)
    by (unfold Rdiv; rewrite Rmult_assoc, Rinv_l by lra; ring).
  destruct (NumFacts.geb_spec ((c - w) / D) 1) as [Hst | Hst].
  - split; [intros _ | reflexivity]. nra.
  - split; [discriminate |]. intros Hle. exfalso.
    assert (1 * D <= (c - w) / D * D) by (rewrite Hmargin; lra).
    assert (1 <= (c - w) / D) by (apply Rmult_le_reg_r with D; assumption).
    lra.
Qed.

Lemma stable_iff_one_caliber_witness :
  isStable (getPreLaunchResults Samples.sampleDesign) = true
  <-> cg (getPreLaunchResults Samples.sampleDesign) + 0.05
      <= cp (getPreLaunchResults Samples.sampleDesign).
Proof.
  apply (proj2 (proj2 (stable_iff_one_caliber Samples.sampleDesign))).
  cbn. lra.
Defined.

Lemma cgNoseMass_of_design (d : RocketDesign) :
  cgNoseMass (cgParams d) = Statements.noseMassOf d.
Proof. reflexivity. Qed.

(** X12. For a design on a catalog motor with a non-negative payload mass,
    the total mass that the centre-of-gravity analysis weighs is the
    [dryMass] of the simulation parameters plus the propellant, and the
    mass the simulation starts with is larger than that by the casing mass
    of the motor. *)
Theorem analysis_and_run_masses :
  forall (d : RocketDesign) (m : Motors.MotorSpec)
         (p : Simulation.SimulationParams),
    Motors.getMotor (motorId d) = Some m ->
    getSimParams d = Some p ->
    0 <= payloadMass d ->
    totalMass (CG.buildCGComponents (cgParams d))
    = Simulation.dryMass p + Motors.propellantMass m
    /\ Simulation.mass (Simulation.createSimulationState p)
       = totalMass (CG.buildCGComponents (cgParams d)) + Motors.dryMass m.
Proof.
  intros d m p Hm Hp Hpay.
  destruct (DesignFacts.getSimParams_resolved d m Hm)
    as (p' & Hp' & Hmot & Hdry & _).
  rewrite Hp in Hp'. injection Hp' as <-.
  destruct (CGMore.buildCGComponents_totals (cgParams d)) as [Htotal _].
  rewrite Htotal, cgNoseMass_of_design.
  cbn [cgParams CG.bodyMass CG.finMass CG.payloadMass CG.motorMass].
  rewrite Hm, Rmax_right by assumption.
  split.
  - rewrite Hdry. ring.
  - cbn [Simulation.createSimulationState Simulation.initialState
         Simulation.mass].
    rewrite Hmot, Hdry. ring.
Qed.

Lemma analysis_and_run_masses_witness :
  totalMass (CG.buildCGComponents (cgParams Samples.sampleDesign))
  = Simulation.dryMass Samples.sampleParams + 0.024.
Proof.
  apply (proj1 (analysis_and_run_masses Samples.sampleDesign Samples.estesC6
                  Samples.sampleParams eq_refl eq_refl ltac:(cbn; lra))).
Defined.

End DesignMore.

(** ** The integrator, continued *)

Module SimulationMore.

Import Simulation Statements Measures.

(** *** Time *)

Lemma time_of_trajectory (p : SimulationParams) (dt : R) (n : nat) :
  time (trajectory p dt n) = INR n * dt.
Proof.
  induction n as [| n IH].
  - cbn. ring.
  - cbn [trajectory]. rewrite SimulationFacts.step_time, IH, S_INR. ring.
Qed.

(** X13. The [n]-th state of a trajectory is at time [n * dt]; so with a
    positive timestep a later state is at a later time. *)
Theorem trajectory_time :
  forall (p : SimulationParams) (dt : R),
    (forall n : nat, time (trajectory p dt n) = INR n * dt)
    /\ (0 < dt ->
        forall i j : nat,
          (i < j)%nat ->
          time (trajectory p dt i) < time (trajectory p dt j)).
Proof.
  intros p dt. split; [apply time_of_trajectory |].
  intros Hdt i j Hij. rewrite !time_of_trajectory.
  apply Rmult_lt_compat_r; [exact Hdt | now apply lt_INR].
Qed.

Lemma trajectory_time_witness :
  time (trajectory Samples.sampleParams DT 1)
  < time (trajectory Samples.sampleParams DT 2).
Proof.
  apply (proj2 (trajectory_time Samples.sampleParams DT)).
  - unfold DT. lra.
  - lia.
Defined.

(** *** Forces *)

Lemma step_airDensity (s : SimulationState) (p : SimulationParams) (dt : R) :
  airDensity (stepSimulation s p dt) = Atmosphere.density (altitude s).
Proof. reflexivity. Qed.

Lemma step_mach (s : SimulationState) (p : SimulationParams) (dt : R) :
  mach (stepSimulation s p dt)
  = Atmosphere.machNumber (Rabs (velocity s)) (altitude s).
Proof. reflexivity. Qed.

Lemma step_cd (s : SimulationState) (p : SimulationParams) (dt : R) :
  cd (stepSimulation s p dt)
  = Drag.dragCoefficient (mach (stepSimulation s p dt)).
Proof. reflexivity. Qed.

Lemma step_drag (s : SimulationState) (p : SimulationParams) (dt : R) :
  drag (stepSimulation s p dt)
  = let magnitude :=
      Drag.dragForceMagnitude (airDensity (stepSimulation s p dt))
                              (Rabs (velocity s))
                              (cd (stepSimulation s p dt))
                              (referenceArea p) in
    if Num.geb (velocity s) 0 then - magnitude else magnitude.
Proof. reflexivity. Qed.

Lemma step_thrust (s : SimulationState) (p : SimulationParams) (dt : R) :
  thrust (stepSimulation s p dt)
  = if inBurnAt p (time s + dt)
    then Motors.thrustAt (motor p) (time s + dt - motorStart p)
         * thrustAltitudeFactor (altitude s)
    else 0.
Proof.
  unfold stepSimulation, inBurnAt, burnoutTime, motorStart. cbn [thrust].
  destruct (Num.geb _ _ && Num.ltb _ _); [reflexivity | ring].
Qed.

(** X14. The drag a step records acts against the velocity the step starts
    from: for a non-negative reference area it is not positive when the
    rocket moves up or rests and not negative when it falls, it is 0 at
    rest, and its magnitude is [0.5 * rho * v^2 * Cd * A] with the density
    and the coefficient of the recorded state. *)
Theorem drag_opposes_velocity :
  forall (s : SimulationState) (p : SimulationParams) (dt : R),
    0 <= referenceArea p ->
    let s' := stepSimulation s p dt in
    (0 <= velocity s -> drag s' <= 0)
    /\ (velocity s < 0 -> 0 <= drag s')
    /\ (velocity s = 0 -> drag s' = 0)
    /\ Rabs (drag s')
       = 0.5 * airDensity s' * (velocity s * velocity s) * cd s'
         * referenceArea p.
Proof.
  intros s p dt Harea s'. subst s'.
  rewrite step_drag. cbv zeta.
  set (rho := airDensity (stepSimulation s p dt)).
  set (c := cd (stepSimulation s p dt)).
  assert (Hrho : 0 <= rho)
    by (apply Rlt_le; unfold rho; rewrite step_airDensity;
        apply AtmosphereFacts.density_pos).
  assert (Hc : 0 <= c).
  { unfold c. rewrite step_cd.
    pose proof (DragFacts.dragCoefficient_range
                  (mach (stepSimulation s p dt))). lra. }
  pose proof (DragMore.dragForceMagnitude_nonneg
                rho (Rabs (velocity s)) c (referenceArea p) Hrho Hc Harea)
    as Hmag.
  assert (Hsq : Rabs (velocity s) * Rabs (velocity s)
                = velocity s * velocity s).
  { rewrite <- Rabs_mult. apply Rabs_right. nra. }
  assert (Heq : Drag.dragForceMagnitude rho (Rabs (velocity s)) c
                                        (referenceArea p)
                = 0.5 * rho * (velocity s * velocity s) * c
                  * referenceArea p).
  { unfold Drag.dragForceMagnitude. rewrite <- Hsq. ring. }
  destruct (NumFacts.geb_spec (velocity s) 0) as [Hup | Hdown].
  - repeat split.
    + intros _. lra.
    + intros Hneg. lra.
    + intros H0. rewrite Heq, H0. ring.
    + rewrite Rabs_Ropp, Rabs_right by lra. exact Heq.
  - repeat split.
    + intros Hpos. lra.
    + intros _. exact Hmag.
    + intros H0. lra.
    + rewrite Rabs_right by lra. exact Heq.
Qed.

Lemma drag_opposes_velocity_witness :
  0 <= drag (stepSimulation Samples.apogeeState Samples.sampleParams DT).
Proof.
  destruct (drag_opposes_velocity Samples.apogeeState Samples.sampleParams DT)
    as (_ & Hfall & _).
  - cbn [Samples.sampleParams referenceArea].
    unfold Barrowman.referenceArea. cbv zeta.
    pose proof PI_RGT_0.
    assert (0 <= Rocket.bodyDiameter Samples.sampleGeometry / 2
                 * (Rocket.bodyDiameter Samples.sampleGeometry / 2))
      by (cbn; lra).
    rewrite Rmult_assoc. apply Rmult_le_pos; lra.
  - apply Hfall. cbn. lra.
Defined.

(** X15. With a motor whose thrust curve is never negative, the thrust a
    step records is never negative, is the curve's value scaled by the
    altitude factor inside the burn window, so at most 12 % above it, and
    is 0 outside the window. *)
Theorem thrust_of_step :
  forall (s : SimulationState) (p : SimulationParams) (dt : R),
    (forall t : R, 0 <= Motors.thrustAt (motor p) t) ->
    let s' := stepSimulation s p dt in
    let raw := Motors.thrustAt (motor p) (time s + dt - motorStart p) in
    0 <= thrust s'
    /\ (motorStart p <= time s + dt < burnoutTime p ->
        raw <= thrust s' <= 1.12 * raw)
    /\ (time s + dt < motorStart p \/ burnoutTime p <= time s + dt ->
        thrust s' = 0).
Proof.
  intros s p dt Hcurve s' raw. subst s' raw.
  rewrite step_thrust. unfold inBurnAt.
  pose proof (Hcurve (time s + dt - motorStart p)) as Hraw.
  pose proof (AtmosphereMore.thrustAltitudeFactor_band (altitude s))
    as Hfactor.
  split; [| split].
  - destruct (Num.geb _ _ && Num.ltb _ _); [| lra].
    apply Rmult_le_pos; lra.
  - intros [Hin Hout]. decide_cmp. cbn [andb]. nra.
  - intros [Hbefore | Hafter]; decide_cmp; [reflexivity |].
    now rewrite andb_false_r.
Qed.

Lemma thrust_of_step_witness :
  0 <= thrust (stepSimulation (createSimulationState Samples.sampleParams)
                              Samples.sampleParams DT).
Proof.
  apply (thrust_of_step (createSimulationState Samples.sampleParams)
                        Samples.sampleParams DT).
  intros t. cbn [Samples.sampleParams motor Samples.estesC6 Motors.thrustAt].
  apply MotorsMore.trapezoid_band; lra.
Defined.

(** *** What every state of a trajectory satisfies *)

Lemma trajectory_aero (p : SimulationParams) (dt : R) (n : nat) :
  0 < airDensity (trajectory p dt n) <= 1.225
  /\ 0 <= mach (trajectory p dt n)
  /\ 0.35 <= cd (trajectory p dt n) <= 1.1.
Proof.
  destruct n as [| n]; cbn [trajectory].
  - cbn [createSimulationState initialState airDensity mach cd].
    rewrite AtmosphereFacts.density_at_ground by lra.
    rewrite DragFacts.dragCoefficient_subsonic by lra.
    unfold Atmosphere.RHO0. lra.
  - rewrite step_airDensity, step_cd, step_mach.
    pose proof (AtmosphereFacts.density_pos
                  (altitude (trajectory p dt n))).
    pose proof (AtmosphereMore.density_le_ground
                  (altitude (trajectory p dt n))) as Hle.
    unfold Atmosphere.RHO0 in Hle.
    pose proof (AtmosphereMore.machNumber_nonneg
                  (velocity (trajectory p dt n))
                  (altitude (trajectory p dt n))).
    pose proof (DragFacts.dragCoefficient_range
                  (Atmosphere.machNumber
                     (Rabs (velocity (trajectory p dt n)))
                     (altitude (trajectory p dt n)))).
    lra.
Qed.

(** X16. In every state of a trajectory the air density is positive and at
    most the sea-level 1.225, the Mach number is not negative and the drag
    coefficient is between 0.35 and 1.1; after a step these three are the
    values at the altitude and velocity the step started from, not at the
    ones it arrives at. *)
Theorem aerodynamic_fields :
  forall (p : SimulationParams) (dt : R) (n : nat),
    let s := trajectory p dt n in
    let s' := trajectory p dt (S n) in
    (0 < airDensity s <= 1.225 /\ 0 <= mach s /\ 0.35 <= cd s <= 1.1)
    /\ airDensity s' = Atmosphere.density (altitude s)
    /\ mach s' = Rabs (velocity s) / Atmosphere.speedOfSound (altitude s)
    /\ cd s' = Drag.dragCoefficient (mach s').
Proof.
  intros p dt n s s'. subst s s'.
  split; [apply trajectory_aero |].
  cbn [trajectory].
  split; [apply step_airDensity |].
  split; [| apply step_cd].
  rewrite step_mach. apply AtmosphereMore.machNumber_quotient.
Qed.

(** *** The recorded apogee *)

Lemma step_apogee (s : SimulationState) (p : SimulationParams) (dt : R) :
  apogee (stepSimulation s p dt) = apogee s
  \/ apogee (stepSimulation s p dt) = Rmax (apogee s) (altitude s).
Proof.
  unfold stepSimulation. cbn [apogee].
  destruct (phase_eqb _ Coast); [right | left]; reflexivity.
Qed.

Lemma step_apogee_by_phase
    (s : SimulationState) (p : SimulationParams) (dt : R) :
  match phase (stepSimulation s p dt) with
  | Coast => apogee (stepSimulation s p dt) = Rmax (apogee s) (altitude s)
  | Pre | Burn | Recovery => apogee (stepSimulation s p dt) = apogee s
  | Apogee => True
  end.
Proof.
  unfold stepSimulation. cbn [apogee phase].
  destruct (phase s), (Num.leb _ (time s + dt)),
           (Num.geb (time s + dt) _ && Num.ltb (time s + dt) _),
           (Num.ltb (velocity s) 0);
    cbn [phase_eqb andb negb]; try reflexivity; exact I.
Qed.

Lemma step_apogee_le (s : SimulationState) (p : SimulationParams) (dt : R) :
  apogee s <= apogee (stepSimulation s p dt).
Proof.
  destruct (step_apogee s p dt) as [-> | ->]; [lra | apply Rmax_l].
Qed.

Lemma trajectory_apogee_seen (p : SimulationParams) (dt : R) (n : nat) :
  exists k : nat,
    (k <= n)%nat /\ apogee (trajectory p dt n) = altitude (trajectory p dt k).
Proof.
  induction n as [| n (k & Hk & IH)].
  - exists 0%nat. split; [lia | reflexivity].
  - cbn [trajectory].
    destruct (step_apogee (trajectory p dt n) p dt) as [-> | ->].
    + exists k. split; [lia | exact IH].
    + destruct (Rle_dec (apogee (trajectory p dt n))
                        (altitude (trajectory p dt n))) as [Hle | Hgt].
      * exists n. split; [lia |]. now rewrite Rmax_right.
      * exists k. split; [lia |]. rewrite Rmax_left by lra. exact IH.
Qed.

(** X17. The recorded apogee never decreases.  A step that ends in [coast]
    sets it to the larger of the old record and the altitude the step
    started from; a step that ends in [pre], [burn] or [recovery] leaves it
    alone.  Along a trajectory the record is always an altitude that some
    state up to then really had. *)
Theorem apogee_record :
  forall (s : SimulationState) (p : SimulationParams) (dt : R),
    let s' := stepSimulation s p dt in
    apogee s <= apogee s'
    /\ (phase s' = Coast -> apogee s' = Rmax (apogee s) (altitude s))
    /\ (phase s' = Pre \/ phase s' = Burn \/ phase s' = Recovery ->
        apogee s' = apogee s)
    /\ (forall n : nat,
          exists k : nat,
            (k <= n)%nat
            /\ apogee (trajectory p dt n) = altitude (trajectory p dt k)).
Proof.
  intros s p dt s'. subst s'.
  pose proof (step_apogee_by_phase s p dt) as Hphase.
  split; [apply step_apogee_le |].
  split; [| split].
  - intros Hc. now rewrite Hc in Hphase.
  - intros [Hc | [Hc | Hc]]; now rewrite Hc in Hphase.
  - apply trajectory_apogee_seen.
Qed.

Lemma apogee_record_witness :
  apogee (stepSimulation Samples.apogeeState Samples.sampleParams DT) = 250.
Proof.
  apply (proj1 (proj2 (proj2
           (apogee_record Samples.apogeeState Samples.sampleParams DT)))).
  right. right. apply SimulationFacts.step_phase_apogee. reflexivity.
Defined.

(** *** On the pad *)

(** X18. The ground stops the altitude, not the velocity.  A rocket at rest
    on the ground in phase [pre], with positive mass and a step that ends
    before ignition, stays in [pre] at altitude 0 with its mass, no thrust
    and no drag, but with the acceleration [-9.81] and the velocity
    [-9.81 * dt]. *)
Theorem waiting_on_the_pad :
  forall (s : SimulationState) (p : SimulationParams) (dt : R),
    phase s = Pre -> altitude s = 0 -> velocity s = 0 -> 0 < mass s ->
    0 <= dt -> time s + dt < motorStart p ->
    let s' := stepSimulation s p dt in
    phase s' = Pre /\ mass s' = mass s /\ thrust s' = 0 /\ drag s' = 0
    /\ acceleration s' = - G
    /\ velocity s' = - G * dt
    /\ altitude s' = 0.
Proof.
  intros s p dt Hph Halt Hvel Hmass Hdt Hearly s'. subst s'.
  assert (Hburn : inBurnAt p (time s + dt) = false)
    by (unfold inBurnAt; now decide_cmp).
  assert (Hphase : phase (stepSimulation s p dt) = Pre)
    by (rewrite SimulationFacts.step_phase, Hph; now decide_cmp).
  assert (Hm : mass (stepSimulation s p dt) = mass s)
    by (rewrite SimulationFacts.step_mass, Hburn, Hph;
        cbn [phase_eqb]; now rewrite andb_false_r).
  assert (Hthrust : thrust (stepSimulation s p dt) = 0)
    by (rewrite step_thrust; now rewrite Hburn).
  assert (Hdrag : drag (stepSimulation s p dt) = 0).
  { rewrite step_drag. cbv zeta. unfold Drag.dragForceMagnitude.
    rewrite Hvel, Rabs_R0. decide_cmp. ring. }
  assert (Hacc : acceleration (stepSimulation s p dt) = - G).
  { rewrite SimulationFacts.step_acceleration, Hm, Hthrust, Hdrag.
    decide_cmp. field. lra. }
  repeat split; try assumption.
  - rewrite SimulationFacts.step_velocity, Hacc, Hvel. ring.
  - rewrite SimulationFacts.step_altitude, Hacc, Halt, Hvel.
    apply Rmax_left. unfold G. nra.
Qed.

Lemma waiting_on_the_pad_witness :
  let late :=
    {| referenceArea := 0.002; dryMass := 0.1; motor := Samples.estesC6;
       motorStartTime := Some 1; deployAtApogee := Some true;
       maxTrailPoints := Some 500 |} in
  velocity (stepSimulation (createSimulationState late) late DT) = - G * DT
  /\ altitude (stepSimulation (createSimulationState late) late DT) = 0.
Proof.
  intros late.
  destruct (waiting_on_the_pad (createSimulationState late) late DT)
    as (_ & _ & _ & _ & _ & Hv & Ha);
    try reflexivity; try (unfold DT, motorStart; cbn; lra).
  split; assumption.
Defined.

(** *** [runToApogee] *)

Lemma runToApogeeLoop_sound (maxTime dt : R) (p : SimulationParams)
    (fuel : nat) :
  forall (n : nat) (s : SimulationState) (steps : nat),
    runToApogeeLoop fuel (trajectory p dt n) n p maxTime dt
    = Some (s, steps) ->
    s = trajectory p dt steps
    /\ (n <= steps <= n + fuel)%nat
    /\ climbing maxTime s = false
    /\ (forall j : nat,
          (n <= j < steps)%nat ->
          climbing maxTime (trajectory p dt j) = true).
Proof.
  induction fuel as [| fuel IH]; intros n s steps;
    cbn [runToApogeeLoop];
    fold (climbing maxTime (trajectory p dt n));
    destruct (climbing maxTime (trajectory p dt n)) eqn:Hclimb;
    try discriminate.
  - intros [= <- <-]. repeat split; try lia. exact Hclimb.
  - intros Hrun. change (stepSimulation (trajectory p dt n) p dt)
      with (trajectory p dt (S n)) in Hrun.
    apply IH in Hrun as (Hs & Hsteps & Hstop & Hbefore).
    repeat split; try assumption; try lia.
    intros j Hj. destruct (Nat.eq_dec j n) as [-> | Hne];
      [exact Hclimb | apply Hbefore; lia].
  - intros [= <- <-]. repeat split; try lia. exact Hclimb.
Qed.

(** X19. When [runToApogee] answers, the state it returns is the state of
    the trajectory after exactly [steps] steps; that state is at or past
    [maxTime] or in phase [apogee], and no earlier state of the trajectory
    was. *)
Theorem runToApogee_sound :
  forall (fuel : nat) (p : SimulationParams) (maxTime dt : R)
         (s : SimulationState) (steps : nat),
    runToApogee fuel p maxTime dt = Some (s, steps) ->
    s = trajectory p dt steps
    /\ (maxTime <= time s \/ phase s = Apogee)
    /\ (forall j : nat,
          (j < steps)%nat ->
          time (trajectory p dt j) < maxTime
          /\ phase (trajectory p dt j) <> Apogee).
Proof.
  intros fuel p maxTime dt s steps Hrun. unfold runToApogee in Hrun.
  change (createSimulationState p) with (trajectory p dt 0) in Hrun.
  apply runToApogeeLoop_sound in Hrun as (Hs & _ & Hstop & Hbefore).
  split; [exact Hs |]. split.
  - unfold climbing in Hstop.
    destruct (NumFacts.ltb_spec (time s) maxTime) as [Hlt | Hge];
      [| left; lra].
    right. cbn [andb] in Hstop.
    destruct (phase s); cbn in Hstop; try discriminate. reflexivity.
  - intros j Hj. specialize (Hbefore j ltac:(lia)).
    unfold climbing in Hbefore.
    apply andb_true_iff in Hbefore as [Htime Hphase].
    split.
    + destruct (NumFacts.ltb_spec (time (trajectory p dt j)) maxTime);
        [assumption | discriminate].
    + intros Heq. rewrite Heq in Hphase. discriminate.
Qed.

Lemma runToApogeeLoop_reaches (maxTime dt : R) (p : SimulationParams)
    (n : nat) :
  maxTime <= time (trajectory p dt n) ->
  forall fuel k : nat,
    (k <= n <= k + fuel)%nat ->
    exists r, runToApogeeLoop fuel (trajectory p dt k) k p maxTime dt = Some r.
Proof.
  intros Hlate.
  assert (Hstop : climbing maxTime (trajectory p dt n) = false)
    by (unfold climbing; now rewrite NumFacts.ltb_false by assumption).
  induction fuel as [| fuel IH]; intros k Hk;
    cbn [runToApogeeLoop];
    fold (climbing maxTime (trajectory p dt k));
    destruct (climbing maxTime (trajectory p dt k)) eqn:Hclimb;
    try (eexists; reflexivity).
  - replace k with n in Hclimb by lia. congruence.
  - change (stepSimulation (trajectory p dt k) p dt)
      with (trajectory p dt (S k)).
    apply IH.
    destruct (Nat.eq_dec k n) as [-> | Hne]; [congruence | lia].
Qed.

(** X20. [runToApogee] ends no later than the first state whose time has
    reached [maxTime]: if the state after [n] steps is at or past
    [maxTime], it answers after at most [n] steps (given the [n]
    iterations this takes). *)
Theorem runToApogee_terminates :
  forall (fuel n : nat) (p : SimulationParams) (maxTime dt : R),
    (n <= fuel)%nat ->
    maxTime <= time (trajectory p dt n) ->
    exists (s : SimulationState) (steps : nat),
      runToApogee fuel p maxTime dt = Some (s, steps)
      /\ (steps <= n)%nat.
Proof.
  intros fuel n p maxTime dt Hfuel Hlate. unfold runToApogee.
  change (createSimulationState p) with (trajectory p dt 0).
  destruct (runToApogeeLoop_reaches maxTime dt p n Hlate fuel 0%nat
              ltac:(lia)) as [[s steps] Hrun].
  exists s, steps. split; [exact Hrun |].
  apply runToApogeeLoop_sound in Hrun as (_ & _ & _ & Hbefore).
  destruct (le_lt_dec steps n) as [Hle | Hgt]; [exact Hle |].
  specialize (Hbefore n ltac:(lia)). unfold climbing in Hbefore.
  rewrite NumFacts.ltb_false in Hbefore by assumption. discriminate.
Qed.

Lemma runToApogee_sound_witness :
  runToApogee 1 Samples.sampleParams (1 / 60) DT
  = Some (trajectory Samples.sampleParams DT 1, 1%nat)
  /\ 1 / 60 <= time (trajectory Samples.sampleParams DT 1).
Proof.
  assert (Hrun : runToApogee 1 Samples.sampleParams (1 / 60) DT
                 = Some (trajectory Samples.sampleParams DT 1, 1%nat)).
  { unfold runToApogee. cbn [runToApogeeLoop].
    rewrite SimulationFacts.step_time.
    cbn [createSimulationState initialState time phase phase_eqb negb].
    rewrite (NumFacts.ltb_true 0 (1 / 60)) by lra.
    unfold DT. rewrite (NumFacts.ltb_false (0 + 1 / 60) (1 / 60)) by lra.
    reflexivity. }
  split; [exact Hrun |].
  destruct (runToApogee_sound _ _ _ _ _ _ Hrun) as (_ & [Hlate | Happ] & _).
  - exact Hlate.
  - rewrite time_of_trajectory. unfold DT. cbn. lra.
Defined.

Lemma runToApogee_terminates_witness :
  exists (s : SimulationState) (steps : nat),
    runToApogee 3 Samples.sampleParams 0.04 DT = Some (s, steps)
    /\ (steps <= 3)%nat.
Proof.
  apply (runToApogee_terminates 3 3 Samples.sampleParams 0.04 DT).
  - lia.
  - rewrite time_of_trajectory. unfold DT. cbn. lra.
Defined.

End SimulationMore.

(** ** The run handler, continued *)

Module RoutesMore.

Import Rocket Simulation Routes Measures.

Lemma trajectoryPrefix_snoc (p : SimulationParams) (dt : R) (n : nat) :
  trajectoryPrefix p dt (S n)
  = trajectoryPrefix p dt n ++ [trajectory p dt (S n)].
Proof.
  unfold trajectoryPrefix. rewrite (seq_S (S n) 0), map_app. reflexivity.
Qed.

Lemma trajectoryPrefix_length (p : SimulationParams) (dt : R) (n : nat) :
  List.length (trajectoryPrefix p dt n) = S n.
Proof. unfold trajectoryPrefix. now rewrite length_map, length_seq. Qed.

Lemma runLoop_prefix (p : SimulationParams) (fuel : nat) :
  forall (n : nat) (out : list SimulationState),
    runLoop fuel (trajectory p Routes.dt n) p (trajectoryPrefix p Routes.dt n)
    = Some out ->
    exists m : nat,
      (n <= m)%nat
      /\ out = trajectoryPrefix p Routes.dt m
      /\ (running (trajectory p Routes.dt m) = false
          \/ (guardLength < S m)%nat)
      /\ (forall j : nat,
            (n <= j < m)%nat ->
            running (trajectory p Routes.dt j) = true).
Proof.
  induction fuel as [| fuel IH]; intros n out;
    cbn [runLoop];
    fold (running (trajectory p Routes.dt n));
    destruct (running (trajectory p Routes.dt n)) eqn:Hrun;
    try discriminate.
  - intros [= <-]. exists n.
    split; [lia |]. split; [reflexivity |]. split; [now left | lia].
  - cbv zeta.
    change (stepSimulation (trajectory p Routes.dt n) p Routes.dt)
      with (trajectory p Routes.dt (S n)).
    rewrite <- trajectoryPrefix_snoc, trajectoryPrefix_length.
    destruct (Nat.ltb_spec guardLength (S (S n))) as [Hguard | Hgo].
    + intros [= <-]. exists (S n).
      split; [lia |]. split; [reflexivity |]. split; [now right |].
      intros j Hj. replace j with n by lia. exact Hrun.
    + intros Hloop. apply IH in Hloop as (m & Hm & Hout & Hstop & Hbefore).
      exists m.
      split; [lia |]. split; [exact Hout |]. split; [exact Hstop |].
      intros j Hj. destruct (Nat.eq_dec j n) as [-> | Hne];
        [exact Hrun | apply Hbefore; lia].
  - intros [= <-]. exists n.
    split; [lia |]. split; [reflexivity |]. split; [now left | lia].
Qed.

(** With the time of state [j] exactly [j / 60], a state the loop steps
    from comes before the 7200th: the loop turns fewer times than the guard
    allows. *)
Lemma running_before_ceiling (p : SimulationParams) (j : nat) :
  running (trajectory p Routes.dt j) = true -> (Z.of_nat j < 7200)%Z.
Proof.
  unfold running. intros Hrun.
  apply andb_true_iff in Hrun as [Htime _].
  rewrite SimulationMore.time_of_trajectory in Htime.
  unfold Routes.dt, maxTime in Htime.
  destruct (NumFacts.ltb_spec (INR j * (1 / 60)) 120) as [Hlt | Hge];
    [| discriminate].
  rewrite INR_IZR_INZ in Hlt.
  apply lt_IZR. lra.
Qed.

(** X21. For a design on a catalog motor the run handler answers with the
    first [m + 1] states of the trajectory at [dt = 1/60], starting with
    the initial state, and with the telemetry of exactly these states.
    The number of steps [m] is within the bound of the safety guard; the
    last state is at or past 120 s or in [recovery], and no earlier state
    is. *)
Theorem run_handler_trajectory :
  forall (d : RocketDesign) (p : SimulationParams),
    DesignToSim.getSimParams d = Some p ->
    exists m : nat,
      runPOST (Some d)
      = Some (RunOk (trajectoryPrefix p Routes.dt m)
                    (map telemetryOf (trajectoryPrefix p Routes.dt m)))
      /\ (m <= guardLength)%nat
      /\ (maxTime <= time (trajectory p Routes.dt m)
          \/ phase (trajectory p Routes.dt m) = Recovery)
      /\ (forall j : nat,
            (j < m)%nat ->
            time (trajectory p Routes.dt j) < maxTime
            /\ phase (trajectory p Routes.dt j) <> Recovery).
Proof.
  intros d p Hp.
  destruct (RoutesFacts.runLoop_total guardLength
              (createSimulationState p) p [createSimulationState p])
    as [out Hout].
  { unfold guardLength. cbn [List.length]. lia. }
  { cbn [List.length]. lia. }
  pose proof Hout as Hloop.
  change (createSimulationState p) with (trajectory p Routes.dt 0) in Hloop.
  change [trajectory p Routes.dt 0]
    with (trajectoryPrefix p Routes.dt 0) in Hloop.
  apply runLoop_prefix in Hloop as (m & _ & -> & Hstop & Hbefore).
  assert (Hm : (Z.of_nat m <= 7200)%Z).
  { destruct m as [| m]; [lia |].
    pose proof (running_before_ceiling p m (Hbefore m ltac:(lia))). lia. }
  assert (Hend : running (trajectory p Routes.dt m) = false).
  { destruct Hstop as [Hend | Hguard]; [exact Hend |].
    unfold guardLength in Hguard. lia. }
  exists m. split; [| split; [unfold guardLength; lia | split]].
  - cbn [runPOST]. rewrite Hp. cbv zeta. now rewrite Hout.
  - unfold running in Hend.
    destruct (NumFacts.ltb_spec (time (trajectory p Routes.dt m)) maxTime)
      as [Hlt | Hge]; [| left; lra].
    right. cbn [andb] in Hend.
    destruct (phase (trajectory p Routes.dt m)); cbn in Hend;
      try discriminate. reflexivity.
  - intros j Hj. specialize (Hbefore j ltac:(lia)).
    unfold running in Hbefore.
    apply andb_true_iff in Hbefore as [Htime Hphase].
    split.
    + destruct (NumFacts.ltb_spec (time (trajectory p Routes.dt j)) maxTime);
        [assumption | discriminate].
    + intros Heq. rewrite Heq in Hphase. discriminate.
Qed.

Lemma run_handler_trajectory_witness :
  exists m : nat,
    runPOST (Some Samples.sampleDesign)
    = Some (RunOk (trajectoryPrefix Samples.sampleParams Routes.dt m)
                  (map telemetryOf
                       (trajectoryPrefix Samples.sampleParams Routes.dt m)))
    /\ (m <= guardLength)%nat.
Proof.
  destruct (run_handler_trajectory Samples.sampleDesign Samples.sampleParams
              eq_refl) as (m & Hrun & Hm & _).
  exists m. split; assumption.
Defined.

End RoutesMore.

(** ** Playback and editing *)

Module PlaybackMore.

Import Rocket Simulation Playback Measures.

Lemma clamp_unit (frac : R) : 0 <= Rmax 0 (Rmin 1 frac) <= 1.
Proof.
  split; [apply Rmax_l |].
  apply Rmax_lub; [lra | apply Rmin_l].
Qed.

Lemma clamp_low (frac : R) : frac <= 0 -> Rmax 0 (Rmin 1 frac) = 0.
Proof. intros H. rewrite Rmin_right by lra. now apply Rmax_left. Qed.

Lemma clamp_high (frac : R) : 1 <= frac -> Rmax 0 (Rmin 1 frac) = 1.
Proof. intros H. rewrite Rmin_left by lra. apply Rmax_right. lra. Qed.

Lemma clamp_inside (frac : R) :
  0 <= frac <= 1 -> Rmax 0 (Rmin 1 frac) = frac.
Proof. intros H. rewrite Rmin_right by lra. apply Rmax_right. lra. Qed.

Lemma lerp_between (x y f : R) :
  0 <= f <= 1 -> between x y (x + f * (y - x)).
Proof.
  intros Hf. unfold between.
  destruct (Rle_dec x y) as [Hxy | Hxy].
  - rewrite Rmin_left, Rmax_right by lra. nra.
  - rewrite Rmin_right, Rmax_left by lra. nra.
Qed.

(** X22. The state shown between two samples [a] and [b] has every number
    between the one of [a] and the one of [b]; it is [a] itself for a
    fraction of 0 or less; for a fraction of 1 or more it has the numbers
    and the trail of [b], yet always the phase and the recorded apogee of
    [a].  The trail is that of [a] below one half and that of [b] from one
    half on. *)
Theorem interpolateState_between :
  forall (a b : SimulationState) (frac : R),
    let s := interpolateState a b frac in
    phase s = phase a /\ apogee s = apogee a
    /\ (between (time a) (time b) (time s)
        /\ between (altitude a) (altitude b) (altitude s)
        /\ between (velocity a) (velocity b) (velocity s)
        /\ between (acceleration a) (acceleration b) (acceleration s)
        /\ between (mass a) (mass b) (mass s)
        /\ between (mach a) (mach b) (mach s)
        /\ between (cd a) (cd b) (cd s)
        /\ between (airDensity a) (airDensity b) (airDensity s)
        /\ between (thrust a) (thrust b) (thrust s)
        /\ between (drag a) (drag b) (drag s))
    /\ (frac <= 0 -> s = a)
    /\ (1 <= frac ->
        time s = time b /\ altitude s = altitude b
        /\ velocity s = velocity b /\ acceleration s = acceleration b
        /\ mass s = mass b /\ mach s = mach b /\ cd s = cd b
        /\ airDensity s = airDensity b /\ thrust s = thrust b
        /\ drag s = drag b /\ trail s = trail b)
    /\ (frac < 0.5 -> trail s = trail a)
    /\ (0.5 <= frac -> trail s = trail b).
Proof.
  intros a b frac s. subst s.
  pose proof (clamp_unit frac) as Hf.
  split; [reflexivity |]. split; [reflexivity |].
  split.
  { cbn [interpolateState time altitude velocity acceleration mass mach cd
         airDensity thrust drag].
    repeat split; apply lerp_between; exact Hf. }
  split.
  { intros Hlow. unfold interpolateState.
    rewrite (clamp_low frac Hlow).
    rewrite NumFacts.ltb_true by lra.
    destruct a; cbn. f_equal; ring. }
  split.
  { intros Hhigh. unfold interpolateState.
    rewrite (clamp_high frac Hhigh).
    rewrite NumFacts.ltb_false by lra.
    cbn [time altitude velocity acceleration mass mach cd airDensity
         thrust drag trail].
    repeat split; ring. }
  split.
  - intros Hhalf. cbn [interpolateState trail].
    rewrite NumFacts.ltb_true; [reflexivity |].
    destruct (Rle_dec frac 0) as [Hneg | Hpos].
    + rewrite clamp_low by assumption. lra.
    + rewrite clamp_inside by lra. exact Hhalf.
  - intros Hhalf. cbn [interpolateState trail].
    rewrite NumFacts.ltb_false; [reflexivity |].
    destruct (Rle_dec 1 frac) as [Hbig | Hsmall].
    + rewrite clamp_high by assumption. lra.
    + rewrite clamp_inside by lra. exact Hhalf.
Qed.

Lemma interpolateState_between_witness :
  interpolateState (createSimulationState Samples.sampleParams)
                   Samples.apogeeState (-1)
  = createSimulationState Samples.sampleParams
  /\ altitude (interpolateState (createSimulationState Samples.sampleParams)
                                Samples.apogeeState 2) = 250.
Proof.
  destruct (interpolateState_between
              (createSimulationState Samples.sampleParams)
              Samples.apogeeState (-1)) as (_ & _ & _ & Hlow & _).
  destruct (interpolateState_between
              (createSimulationState Samples.sampleParams)
              Samples.apogeeState 2) as (_ & _ & _ & _ & Hhigh & _).
  split.
  - apply Hlow. lra.
  - apply (proj1 (proj2 (Hhigh ltac:(lra)))).
Defined.

(** X23. An edit that carries a geometry installs it with the fin leading
    edge moved into the body tube: never less than 1 cm behind the nose
    cone, and, when the body is at least 2 cm long, never less than 1 cm
    before its end; a leading edge already in that range is kept, and no
    other number of the geometry is touched.  With a shorter body the edge
    sits 1 cm behind the nose, past the allowed end.  An edit without a
    geometry leaves the geometry as it is, in range or not. *)
Theorem fins_stay_on_body :
  forall (d : RocketDesign) (u : DesignUpdates),
    (forall g : RocketGeometry,
        u_geometry u = Some g ->
        let g' := geometry (handleDesignChange d u) in
        noseLength g + 0.01 <= finRootLeadingEdge g'
        /\ (0.02 <= bodyLength g ->
            finRootLeadingEdge g' <= noseLength g + bodyLength g - 0.01)
        /\ (bodyLength g < 0.02 ->
            finRootLeadingEdge g' = noseLength g + 0.01)
        /\ (noseLength g + 0.01 <= finRootLeadingEdge g
            <= noseLength g + bodyLength g - 0.01 ->
            g' = g)
        /\ noseLength g' = noseLength g /\ noseShape g' = noseShape g
        /\ bodyDiameter g' = bodyDiameter g /\ bodyLength g' = bodyLength g
        /\ finRootChord g' = finRootChord g /\ finTipChord g' = finTipChord g
        /\ finSemispan g' = finSemispan g /\ finSweep g' = finSweep g
        /\ numFins g' = numFins g)
    /\ (u_geometry u = None ->
        geometry (handleDesignChange d u) = geometry d).
Proof.
  intros d u. split.
  - intros g Hg g'. subst g'. unfold handleDesignChange. rewrite Hg.
    cbn [geometry finRootLeadingEdge noseLength noseShape bodyDiameter
         bodyLength finRootChord finTipChord finSemispan finSweep numFins].
    split; [apply Rmax_l |].
    split; [| split; [| split]].
    + intros Hlong. apply Rmax_lub; [lra | apply Rmin_r].
    + intros Hshort. apply Rmax_left.
      pose proof (Rmin_r (finRootLeadingEdge g)
                         (noseLength g + bodyLength g - 0.01)). lra.
    + intros Hin. rewrite Rmin_left, Rmax_right by lra.
      now destruct g.
    + repeat split.
  - intros Hnone. unfold handleDesignChange. rewrite Hnone. reflexivity.
Qed.

Lemma fins_stay_on_body_witness :
  let edit :=
    {| u_geometry := Some Samples.finless; u_bodyMass := None;
       u_finMass := None; u_noseMass := None; u_payloadMass := None;
       u_payloadPosition := None; u_motorId := None;
       u_motorPosition := None |} in
  geometry (handleDesignChange Samples.sampleDesign edit) = Samples.finless.
Proof.
  intros edit.
  destruct (proj1 (fins_stay_on_body Samples.sampleDesign edit)
                  Samples.finless eq_refl) as (_ & _ & _ & Hkeep & _).
  apply Hkeep. cbn. lra.
Defined.

End PlaybackMore.

(** ** The force arrows *)

Module SceneMore.

Import Simulation Scene.

Lemma share_of_reference (f a b c L : R) :
  0 <= f -> 0 <= L ->
  f <= Rmax (Rmax (Rmax a b) c) 0.1 ->
  0 <= f / Rmax (Rmax (Rmax a b) c) 0.1 * (L * 0.9) <= L * 0.9.
Proof.
  intros Hf HL Hle.
  set (ref := Rmax (Rmax (Rmax a b) c) 0.1) in *.
  assert (Href : 0.1 <= ref) by apply Rmax_r.
  assert (Hinv : 0 < / ref) by (apply Rinv_0_lt_compat; lra).
  assert (Hshare : 0 <= f / ref <= 1).
  { unfold Rdiv. split; [apply Rmult_le_pos; lra |].
    apply Rmult_le_reg_r with ref; [lra |].
    rewrite Rmult_assoc, Rinv_l by lra. lra. }
  nra.
Qed.

(** X24. With a non-negative rocket length and a state of non-negative
    mass, each of the three force arrows has a length between 0 and nine
    tenths of the rocket length; without a state all three have length
    0. *)
Theorem arrow_lengths_bounded :
  forall totalLength : R,
    0 <= totalLength ->
    (forall s : SimulationState,
        0 <= mass s ->
        let arrows := arrowLengths totalLength (Some s) in
        0 <= thrustLen arrows <= 0.9 * totalLength
        /\ 0 <= dragLen arrows <= 0.9 * totalLength
        /\ 0 <= gravityLen arrows <= 0.9 * totalLength)
    /\ (let arrows := arrowLengths totalLength None in
        thrustLen arrows = 0 /\ dragLen arrows = 0 /\ gravityLen arrows = 0).
Proof.
  intros L HL. split.
  - intros s Hmass arrows. subst arrows.
    unfold arrowLengths. cbn [thrustLen dragLen gravityLen].
    replace (0.9 * L) with (L * 0.9) by ring.
    split; [| split]; apply share_of_reference;
      try assumption; try apply Rabs_pos; try lra.
    + eapply Rle_trans; [| apply Rmax_l].
      eapply Rle_trans; [| apply Rmax_l]. apply Rmax_l.
    + eapply Rle_trans; [| apply Rmax_l].
      eapply Rle_trans; [| apply Rmax_l]. apply Rmax_r.
    + eapply Rle_trans; [| apply Rmax_l]. apply Rmax_r.
  - unfold arrowLengths. cbn [thrustLen dragLen gravityLen].
    unfold Rdiv. repeat split; ring.
Qed.

Lemma arrow_lengths_bounded_witness :
  0 <= gravityLen (arrowLengths 0.52 (Some Samples.apogeeState))
    <= 0.9 * 0.52.
Proof.
  destruct (proj1 (arrow_lengths_bounded 0.52 ltac:(lra))
                  Samples.apogeeState ltac:(cbn; lra))
    as (_ & _ & Hgravity).
  exact Hgravity.
Defined.

End SceneMore.

(** ** The runs of the request handler *)

Module RunMore.

Import Rocket Simulation Statements Measures.

(** What [getSimParams] guarantees about the parameters of a run. *)
Lemma handler_params (d : RocketDesign) (p : SimulationParams) :
  DesignToSim.getSimParams d = Some p ->
  motorStart p = 0
  /\ 0.5 <= Motors.burnTime (motor p)
  /\ 0 <= Motors.propellantMass (motor p)
  /\ 0 < Motors.dryMass (motor p).
Proof.
  unfold DesignToSim.getSimParams.
  destruct (Motors.getMotor (motorId d)) as [m |] eqn:Hm; [| discriminate].
  intros [= <-].
  destruct (SimulationFacts.catalog_motor _ _ Hm) as [Hburn Hprop].
  destruct (MotorsMore.getMotor_sound _ _ Hm) as [Hin _].
  cbn [motor motorStartTime motorStart orElse].
  unfold motorStart. cbn [motorStartTime orElse].
  repeat split; try assumption.
  cbn [In Motors.MOTORS] in Hin.
  repeat (destruct Hin as [<- | Hin]; [cbn; lra |]).
  contradiction.
Qed.

Lemma handler_stepped (d : RocketDesign) (p : SimulationParams) (n : nat) :
  DesignToSim.getSimParams d = Some p ->
  stepped p Routes.dt (trajectory p Routes.dt (S n)).
Proof.
  intros Hp. destruct (handler_params d p Hp) as (Hstart & Hburn & _ & _).
  apply SimulationFacts.trajectory_stepped.
  - unfold Routes.dt. lra.
  - unfold Routes.dt. lra.
  - unfold burnoutTime. rewrite Hstart. unfold Routes.dt. lra.
Qed.

Lemma handler_time_pos (p : SimulationParams) (n : nat) :
  0 < time (trajectory p Routes.dt (S n)).
Proof.
  rewrite SimulationMore.time_of_trajectory. unfold Routes.dt.
  pose proof (pos_INR n). rewrite S_INR. lra.
Qed.

(** X25. In a run of the request handler the first step ignites the motor:
    no state after the initial one is in [pre], and a state after the
    initial one is in [burn] exactly while its time is below the burn time
    of the motor. *)
Theorem burn_phase_window :
  forall (d : RocketDesign) (p : SimulationParams) (n : nat),
    DesignToSim.getSimParams d = Some p ->
    let s := trajectory p Routes.dt (S n) in
    phase s <> Pre
    /\ (phase s = Burn <-> time s < Motors.burnTime (motor p)).
Proof.
  intros d p n Hp s. subst s.
  destruct (handler_params d p Hp) as (Hstart & _).
  pose proof (handler_time_pos p n) as Htime.
  destruct (handler_stepped d p n Hp)
    as [[_ Hearly] | [(Hph & Hwin & _) | (Hpre & Hburn & Hout & _)]].
  - lra.
  - unfold burnoutTime in Hwin. rewrite Hstart in Hwin.
    split; [rewrite Hph; discriminate |].
    split; [intros _; lra | intros _; exact Hph].
  - unfold burnoutTime in Hout. rewrite Hstart in Hout.
    split; [exact Hpre |].
    split; [intros Hb; contradiction | intros Hlt; lra].
Qed.

Lemma burn_phase_window_witness :
  phase (trajectory Samples.sampleParams Routes.dt 1) = Burn.
Proof.
  destruct (burn_phase_window Samples.sampleDesign Samples.sampleParams 0
              eq_refl) as [_ Hiff].
  apply Hiff. rewrite SimulationMore.time_of_trajectory.
  unfold Routes.dt. cbn. lra.
Defined.

(** X26. Along a trajectory at most one state is in phase [apogee]: the
    state after it is in [recovery], and so is every later one. *)
Theorem apogee_at_most_once :
  forall (p : SimulationParams) (dt : R) (i j : nat),
    phase (trajectory p dt i) = Apogee ->
    (i < j)%nat ->
    phase (trajectory p dt j) = Recovery.
Proof.
  intros p dt i j Hi Hij.
  apply (SimulationFacts.trajectory_recovery p dt (S i) j); [lia |].
  cbn [trajectory]. now apply SimulationFacts.step_phase_apogee.
Qed.

Lemma burningMass_band (p : SimulationParams) (t : R) :
  0 < Motors.burnTime (motor p) ->
  0 <= Motors.propellantMass (motor p) ->
  motorStart p <= t < burnoutTime p ->
  burnoutMass p <= burningMass p t <= wetMass p.
Proof.
  intros Hburn Hprop [Hlo Hhi].
  unfold burningMass, burnoutMass, wetMass, burnoutTime in *.
  assert (Hinv : 0 < / Motors.burnTime (motor p))
    by now apply Rinv_0_lt_compat.
  assert (Hfrac : 0 <= (t - motorStart p) / Motors.burnTime (motor p) <= 1).
  { unfold Rdiv. split; [apply Rmult_le_pos; lra |].
    apply Rmult_le_reg_r with (Motors.burnTime (motor p)); [lra |].
    rewrite Rmult_assoc, Rinv_l by lra. lra. }
  nra.
Qed.

(** X27. In a run of the request handler whose parameters have a
    non-negative [dryMass], every state has a mass between
    [dryMass + motorDryMass] and the full wet mass; the mass is therefore
    positive, and every step computes its acceleration as net force over
    mass, never by the fallback 0. *)
Theorem run_mass_positive :
  forall (d : RocketDesign) (p : SimulationParams) (n : nat),
    DesignToSim.getSimParams d = Some p ->
    0 <= dryMass p ->
    let s := trajectory p Routes.dt n in
    let s' := trajectory p Routes.dt (S n) in
    burnoutMass p <= mass s <= wetMass p
    /\ 0 < mass s
    /\ acceleration s' = (thrust s' + drag s' + - G * mass s') / mass s'.
Proof.
  intros d p n Hp Hdry s s'. subst s s'.
  destruct (handler_params d p Hp) as (_ & Hburn & Hprop & Hcase).
  assert (Hband : forall k, burnoutMass p <= mass (trajectory p Routes.dt k)
                            <= wetMass p).
  { intros [| k].
    - cbn [trajectory]. rewrite SimulationFacts.initial_mass.
      unfold burnoutMass, wetMass. lra.
    - destruct (handler_stepped d p k Hp)
        as [[(_ & Hm & _) _] | [(_ & Hwin & Hm) | (_ & _ & _ & Hm)]];
        rewrite Hm.
      + unfold burnoutMass, wetMass. lra.
      + apply burningMass_band; [lra | assumption | assumption].
      + unfold burnoutMass, wetMass. lra. }
  assert (Hpos : forall k, 0 < mass (trajectory p Routes.dt k)).
  { intros k. pose proof (Hband k) as [Hlo _].
    unfold burnoutMass in Hlo. lra. }
  split; [apply Hband |]. split; [apply Hpos |].
  cbn [trajectory]. rewrite SimulationFacts.step_acceleration.
  change (stepSimulation (trajectory p Routes.dt n) p Routes.dt)
    with (trajectory p Routes.dt (S n)).
  now rewrite NumFacts.gtb_true by apply Hpos.
Qed.

Lemma run_mass_positive_witness :
  0 < mass (trajectory Samples.sampleParams Routes.dt 3).
Proof.
  apply (proj1 (proj2 (run_mass_positive Samples.sampleDesign
                         Samples.sampleParams 3 eq_refl ltac:(cbn; lra)))).
Defined.

(** With steps of two seconds the sample rocket never burns: it is in
    [coast] after one step, falling, and in [apogee] after two. *)
Lemma coarse_flight (p := Samples.sampleParams) :
  phase (trajectory p 2 1) = Coast
  /\ velocity (trajectory p 2 1) < 0
  /\ phase (trajectory p 2 2) = Apogee.
Proof.
  set (s0 := createSimulationState p).
  assert (Hburn : inBurnAt p (time s0 + 2) = false).
  { unfold inBurnAt, burnoutTime, motorStart. cbn. decide_cmp.
    now rewrite andb_false_r. }
  assert (Hphase : phase (trajectory p 2 1) = Coast).
  { cbn [trajectory]. fold s0. rewrite SimulationFacts.step_phase, Hburn.
    cbn [s0 createSimulationState initialState phase velocity].
    unfold motorStart. cbn. now decide_cmp. }
  assert (Hmass : mass (stepSimulation s0 p 2) = mass s0).
  { rewrite SimulationFacts.step_mass, Hburn.
    cbn [s0 createSimulationState initialState phase phase_eqb].
    now rewrite andb_false_r. }
  assert (Hvel : velocity (trajectory p 2 1) = - G * 2).
  { cbn [trajectory]. fold s0.
    rewrite SimulationFacts.step_velocity, SimulationFacts.step_acceleration.
    rewrite SimulationMore.step_thrust, Hburn, SimulationMore.step_drag, Hmass.
    cbv zeta. unfold Drag.dragForceMagnitude.
    cbn [s0 createSimulationState initialState velocity mass p
         Samples.sampleParams dryMass motor Samples.estesC6
         Motors.propellantMass Motors.dryMass].
    rewrite Rabs_R0. decide_cmp. field; lra. }
  split; [exact Hphase |]. split; [rewrite Hvel; unfold G; lra |].
  change (trajectory p 2 2) with (stepSimulation (trajectory p 2 1) p 2).
  rewrite SimulationFacts.step_phase, Hphase, Hvel.
  unfold G. now decide_cmp.
Qed.

Lemma apogee_at_most_once_witness :
  phase (trajectory Samples.sampleParams 2 3) = Recovery.
Proof.
  apply (apogee_at_most_once Samples.sampleParams 2 2 3).
  - apply coarse_flight.
  - lia.
Defined.

(** X28. A state in [pre] whose next step arrives at or after ignition
    but not before burnout (a burn time of 0, or a timestep longer than the
    burn) skips the burn: it goes to [coast], or to [apogee] when it is
    already falling, with no thrust and with the mass it had, propellant
    included. *)
Theorem burn_skipped :
  forall (s : SimulationState) (p : SimulationParams) (dt : R),
    phase s = Pre ->
    motorStart p <= time s + dt ->
    burnoutTime p <= time s + dt ->
    let s' := stepSimulation s p dt in
    phase s' = (if Num.ltb (velocity s) 0 then Apogee else Coast)
    /\ thrust s' = 0
    /\ mass s' = mass s.
Proof.
  intros s p dt Hph Hstart Hout s'. subst s'.
  assert (Hburn : inBurnAt p (time s + dt) = false).
  { unfold inBurnAt. rewrite (NumFacts.ltb_false _ _ Hout).
    apply andb_false_r. }
  split; [| split].
  - rewrite SimulationFacts.step_phase, Hph, Hburn. now decide_cmp.
  - now rewrite SimulationMore.step_thrust, Hburn.
  - rewrite SimulationFacts.step_mass, Hburn, Hph.
    cbn [phase_eqb]. now rewrite andb_false_r.
Qed.

Lemma burn_skipped_witness :
  thrust (stepSimulation (createSimulationState Samples.sampleParams)
                         Samples.sampleParams 2) = 0
  /\ mass (stepSimulation (createSimulationState Samples.sampleParams)
                          Samples.sampleParams 2)
     = mass (createSimulationState Samples.sampleParams).
Proof.
  destruct (burn_skipped (createSimulationState Samples.sampleParams)
                         Samples.sampleParams 2)
    as (_ & Hthrust & Hmass);
    try reflexivity;
    try (unfold burnoutTime, motorStart; cbn; lra).
  split; assumption.
Defined.

End RunMore.
